(** * flier/hexdump: a shallow embedding of the style engine, the line
      formatter and the streaming dumper, with the properties of the
      specification stated over it.

    Conventions.
    - A Go [[]byte] is a [list byte] (the 256-constructor type of
      [Stdlib.Strings.Byte]); where the capacity of a slice matters
      (the [Bytes] entry point) a slice is a [GoSlice] with its spare
      capacity written out.
    - A Go [string] is a Rocq [string]: both are sequences of 8-bit
      characters.
    - Go [int] and [int64] are [Z]; truncated division and remainder are
      [Z.quot] and [Z.rem].  Offsets stay far below 2^63 in every statement,
      so wrap-around is not modelled.
    - A normal return, an [error] result and a panic are the first three
      constructors of [outcome]; the fourth, [OutOfFuel], is what a loop
      written with a fuel returns when the fuel is used up, which
      [formatGroups_terminates] and [flushLines_terminates] show never
      happens.
    - The writer a dump is sent to accepts every write; what reaches it, and
      every run of the color resolution, is recorded in the [trace] of the
      [World]. *)

From Stdlib Require Import ZArith List Bool Lia Arith.
From Stdlib Require Import Strings.Byte Strings.Ascii Strings.String.
Import ListNotations.

Local Open Scope string_scope.
Local Open Scope list_scope.
Local Open Scope Z_scope.

(** ** Results of fallible code *)

(** [DisplayStyle] is [type DisplayStyle int]: every integer is a value of
    the type, the named constants are seven of them. *)
Definition DisplayStyle := Z.

Inductive error : Type :=
| EOF                (* io.EOF *)
| ErrUnexpectedEOF.  (* io.ErrUnexpectedEOF *)

Inductive panic : Type :=
| PanicStyle (s : DisplayStyle)  (* panic(s) in formatGroup *)
| PanicIndex                     (* runtime error: index out of range *)
| PanicSliceBounds               (* runtime error: slice bounds out of range *)
| PanicMakeSlice                 (* runtime error: makeslice: len out of range *)
| PanicNil                       (* nil pointer dereference *)
| PanicDivide.                   (* integer divide by zero *)

Inductive outcome (A : Type) : Type :=
| Ok (a : A)
| Err (e : error)
| Panic (p : panic)
| OutOfFuel.
Arguments Ok {A} a.
Arguments Err {A} e.
Arguments Panic {A} p.
Arguments OutOfFuel {A}.

Definition byte_val (b : byte) : Z := Z.of_N (Byte.to_N b).

Definition len {A} (l : list A) : Z := Z.of_nat (List.length l).

(** ** The parts of Go's standard library the program calls *)

Module fmt.

(** The digit table ["0123456789abcdef"] of package fmt. *)
Definition digit (d : Z) : ascii :=
  ascii_of_N (Z.to_N (if d <? 10 then 48 + d else 87 + d)).

(** The digit loop of [fmtInteger]: least significant digit first, written
    from the end of a 68-byte buffer; [fuel] is the room in that buffer. *)
Fixpoint digits (fuel : nat) (base u : Z) (acc : string) : string :=
  match fuel with
  | O => acc
  | S fuel' =>
      if u <? base then String (digit u) acc
      else digits fuel' base (u / base) (String (digit (u mod base)) acc)
  end.

Fixpoint zeros (n : nat) : string :=
  match n with
  | O => EmptyString
  | S n' => String "0" (zeros n')
  end.

(** [%0<width><verb>] of an integer, verb [d], [o] or [x]: with the zero
    flag the width becomes the precision, one less when a sign is
    printed. *)
Definition fmtInteger (base width v : Z) : string :=
  let ds := digits 68 base (Z.abs v) EmptyString in
  let prec := if v <? 0 then width - 1 else width in
  let sign := if v <? 0 then "-" else EmptyString in
  let pad := zeros (Z.to_nat prec - String.length ds)%nat in
  (sign ++ pad ++ ds)%string.

(** UTF-8 encoding of a rune below 0x800, which is all [%c] of a byte
    needs: one byte below 0x80, two bytes from there on. *)
Definition encodeRune (r : Z) : string :=
  if r <? 128 then String (ascii_of_N (Z.to_N r)) EmptyString
  else String (ascii_of_N (Z.to_N (Z.lor 192 (Z.shiftr r 6))))
         (String (ascii_of_N (Z.to_N (Z.lor 128 (Z.land r 63))))
            EmptyString).

End fmt.

Module unicode.

(** [unicode.IsPrint] on a rune of the Latin-1 range, where it is a table
    lookup ([properties[r]&pp != 0]): the printable entries of the table
    are 0x20..0x7e and 0xa1..0xff without the soft hyphen 0xad. *)
Definition IsPrint (r : Z) : bool :=
  ((32 <=? r) && (r <=? 126))
  || ((161 <=? r) && (r <=? 255) && negb (r =? 173)).

End unicode.

Module binary.

(** [binary.ByteOrder], the part of the interface the program calls:
    [Uint16] of a two-byte slice. *)
Class ByteOrder : Type := { Uint16 : byte -> byte -> Z }.

Definition LittleEndian : ByteOrder :=
  {| Uint16 b0 b1 := Z.lor (byte_val b0) (Z.shiftl (byte_val b1) 8) |}.

Definition BigEndian : ByteOrder :=
  {| Uint16 b0 b1 := Z.lor (byte_val b1) (Z.shiftl (byte_val b0) 8) |}.

End binary.

(** ** style.go *)

Definition StyleCanonical : DisplayStyle := 0.
Definition StyleOneByteChar : DisplayStyle := 1.
Definition StyleOneByteHex : DisplayStyle := 2.
Definition StyleOneByteOctal : DisplayStyle := 3.
Definition StyleTwoBytesDec : DisplayStyle := 4.
Definition StyleTwoBytesHex : DisplayStyle := 5.
Definition StyleTwoBytesOctal : DisplayStyle := 6.

Definition twoBytes : Z := 2.

(** The three arms of the [switch s] statements. *)
Definition isHexOrCanonical (s : DisplayStyle) : bool :=
  (s =? StyleCanonical) || (s =? StyleOneByteHex).
Definition isCharOrOctal (s : DisplayStyle) : bool :=
  (s =? StyleOneByteChar) || (s =? StyleOneByteOctal).
Definition isTwoBytes (s : DisplayStyle) : bool :=
  (s =? StyleTwoBytesHex) || (s =? StyleTwoBytesOctal) || (s =? StyleTwoBytesDec).

(** [slices.Repeat] of a one-element slice.  It panics on a negative
    count; [padding] is only called with [max(_, 0)] or [1]. *)
Definition Repeat (x : string) (count : Z) : list string :=
  List.repeat x (Z.to_nat count).

Definition padding (s : DisplayStyle) (n : Z) : list string :=
  if isHexOrCanonical s then Repeat "  " n
  else if isCharOrOctal s then Repeat "   " n
  else if isTwoBytes s then Repeat "       " (Z.quot n twoBytes)
  else [].

(** [formatValue]: [fmt.Sprintf(formatValues[s], v)] with the format
    looked up in the [formatValues] map.  A style without an entry never
    gets here: [formatGroup] panics first. *)
Definition formatValue (s : DisplayStyle) (v : Z) : string :=
  if (s =? StyleCanonical) then fmt.fmtInteger 16 2 v            (* "%02x" *)
  else if (s =? StyleOneByteChar) then ("  " ++ fmt.encodeRune v)%string  (* "  %c" *)
  else if (s =? StyleOneByteHex) then fmt.fmtInteger 16 2 v      (* "%02x" *)
  else if (s =? StyleOneByteOctal) then fmt.fmtInteger 8 3 v     (* "%03o" *)
  else if (s =? StyleTwoBytesDec) then ("  " ++ fmt.fmtInteger 10 5 v)%string   (* "  %05d" *)
  else if (s =? StyleTwoBytesHex) then ("   " ++ fmt.fmtInteger 16 4 v)%string  (* "   %04x" *)
  else if (s =? StyleTwoBytesOctal) then (" " ++ fmt.fmtInteger 8 6 v)%string   (* " %06o" *)
  else EmptyString.

Definition formatGroup (s : DisplayStyle) (b : list byte)
    (order : binary.ByteOrder) : outcome (string * list byte) :=
  if (s =? StyleCanonical) || (s =? StyleOneByteHex) || (s =? StyleOneByteOctal) then
    match b with
    | [] => Panic PanicIndex
    | b0 :: rest => Ok (formatValue s (byte_val b0), rest)
    end
  else if (s =? StyleOneByteChar) then
    match b with
    | [] => Panic PanicIndex
    | b0 :: rest =>
        if unicode.IsPrint (byte_val b0)
        then Ok (formatValue s (byte_val b0), rest)
        else match padding s 1 with
             | [] => Panic PanicIndex
             | p :: _ => Ok (p, rest)
             end
    end
  else if (s =? StyleTwoBytesDec) || (s =? StyleTwoBytesHex) || (s =? StyleTwoBytesOctal) then
    match b with
    | [b0] => Ok (formatValue s (byte_val b0), [])
    | b0 :: b1 :: rest => Ok (formatValue s (binary.Uint16 b0 b1), rest)
    | [] => Panic PanicSliceBounds
    end
  else Panic (PanicStyle s).

(** [formatGroups], collected: the loop [for len(rest) > 0] runs
    [formatGroup] on what the previous group left over.  Each turn takes at
    least one byte, so [length b] turns are enough
    ([formatGroups_terminates]). *)
Fixpoint formatGroups_loop (fuel : nat) (s : DisplayStyle) (rest : list byte)
    (order : binary.ByteOrder) : outcome (list string) :=
  match rest with
  | [] => Ok []
  | _ :: _ =>
      match fuel with
      | O => OutOfFuel
      | S fuel' =>
          match formatGroup s rest order with
          | Ok (str, rest') =>
              match formatGroups_loop fuel' s rest' order with
              | Ok strs => Ok (str :: strs)
              | Err e => Err e
              | Panic p => Panic p
              | OutOfFuel => OutOfFuel
              end
          | Err e => Err e
          | Panic p => Panic p
          | OutOfFuel => OutOfFuel
          end
      end
  end.

Definition formatGroups (s : DisplayStyle) (b : list byte)
    (order : binary.ByteOrder) : outcome (list string) :=
  formatGroups_loop (List.length b) s b order.

(** [formatLine]: [slices.Concat] of the leading padding, the groups and
    the trailing padding. *)
Definition formatLine (s : DisplayStyle) (width skip : Z) (buf : list byte)
    (order : binary.ByteOrder) : outcome (list string) :=
  let lead := padding s (Z.max skip 0) in
  match formatGroups s buf order with
  | Ok groups => Ok (lead ++ groups ++ padding s (Z.max (width - skip - len buf) 0))
  | Err e => Err e
  | Panic p => Panic p
  | OutOfFuel => OutOfFuel
  end.

(** ** color.go, and the part of github.com/fatih/color it relies on *)

(** An [io.Writer] the dump is sent to. *)
Inductive Writer : Type :=
| Stdout
| Stderr
| Sink (id : nat).

Inductive ColorMode : Type :=
| ColorAuto
| ColorAlways
| ColorNever.

Module color.

(** A [*color.Color]: the escape sequence that switches its attributes on
    and the one that switches them off. *)
Record Color : Type := { format : string; unformat : string }.

Definition escape : string := String (ascii_of_N 27) EmptyString.

Definition New (code reset : string) : Color :=
  {| format := (escape ++ "[" ++ code ++ "m")%string;
     unformat := (escape ++ "[" ++ reset ++ "m")%string |}.

(** [Sprint]: the text wrapped in the two sequences unless the
    process-wide [color.NoColor] is set. *)
Definition Sprint (NoColor : bool) (c : Color) (s : string) : string :=
  if NoColor then s else (format c ++ s ++ unformat c)%string.

(** What [SetWriter] and [UnsetWriter] write to the writer. *)
Definition SetWriter (NoColor : bool) (c : Color) : string :=
  if NoColor then EmptyString else format c.

Definition UnsetWriter (NoColor : bool) (c : Color) : string :=
  if NoColor then EmptyString else (escape ++ "[0m")%string.

End color.

Record ColorTheme : Type := {
  Offset : color.Color;
  Content : color.Color;
  Chars : color.Color
}.

Definition DefaultTheme : ColorTheme :=
  {| Offset := color.New "2" "22";   (* color.Faint *)
     Content := color.New "0" "0";   (* color.Reset *)
     Chars := color.New "3" "23" |}. (* color.Italic *)

(** ** The formatter *)

(** The [bufio.Writer] of a formatter is flushed at the end of every
    [FormatLine], so it is empty between two lines: the record keeps the
    writer it wraps, and a line reaches that writer in one piece. *)
Record Formatter : Type := {
  fWriter : Writer;
  fTheme : ColorTheme;
  fStyle : DisplayStyle;
  fOrder : binary.ByteOrder;
  fLineWidth : Z
}.

Definition groupsSep : Z := 8.

Fixpoint spaces_nat (n : nat) : string :=
  match n with
  | O => EmptyString
  | S n' => String " " (spaces_nat n')
  end.

(** [spaces]: [strings.Repeat(" ", max(n, 0))]. *)
Definition spaces (n : Z) : string := spaces_nat (Z.to_nat (Z.max n 0)).

(** The text [formatOffset] writes. *)
Definition formatOffset (NoColor : bool) (f : Formatter) (off : Z) : string :=
  (color.Sprint NoColor (Offset (fTheme f)) (fmt.fmtInteger 16 8 off) ++ " ")%string.

(** The body of the [for i, s := range] loop of [formatContent], from
    index [i] on: a space, a second one at every eighth token of a line
    wider than eight, the token. *)
Fixpoint writeTokens (lineWidth i : Z) (toks : list string) : string :=
  match toks with
  | [] => EmptyString
  | s :: toks' =>
      let sep :=
        if (0 <? i) && (groupsSep <? lineWidth) && (Z.rem i groupsSep =? 0)
        then "  " else " " in
      (sep ++ s ++ writeTokens lineWidth (i + 1) toks')%string
  end.

(** The text [formatContent] writes; the tokens are all computed before the
    first of them is written, so a panic of the style engine leaves only
    what [SetWriter] and the deferred [UnsetWriter] wrote. *)
Definition formatContent (NoColor : bool) (f : Formatter) (skip : Z)
    (buf : list byte) : outcome string * string :=
  let pre := color.SetWriter NoColor (Content (fTheme f)) in
  let post := color.UnsetWriter NoColor (Content (fTheme f)) in
  match formatLine (fStyle f) (fLineWidth f) skip buf (fOrder f) with
  | Ok toks =>
      let text := (pre ++ writeTokens (fLineWidth f) 0 toks ++ post)%string in
      (Ok text, text)
  | Err e => (Err e, (pre ++ post)%string)
  | Panic p => (Panic p, (pre ++ post)%string)
  | OutOfFuel => (OutOfFuel, (pre ++ post)%string)
  end.

(** One byte of the character column. *)
Definition charGlyph (c : byte) : ascii :=
  if (128 <=? byte_val c) || negb (unicode.IsPrint (byte_val c))
  then "."%char else ascii_of_byte c.

Definition charTable (f : Formatter) (skip : Z) (buf : list byte) : string :=
  (spaces skip
   ++ string_of_list_ascii (List.map charGlyph buf)
   ++ spaces (fLineWidth f - skip - len buf))%string.

(** The text [formatChars] writes. *)
Definition formatChars (NoColor : bool) (f : Formatter) (skip : Z)
    (buf : list byte) : string :=
  ("  |" ++ color.Sprint NoColor (Chars (fTheme f)) (charTable f skip buf)
   ++ "|" ++ String (ascii_of_N 10) EmptyString)%string.

(** ** The process around a dumper *)

(** What the dumper does to the world outside it, in order. *)
Inductive Event : Type :=
| EvInitColor (w : Writer) (m : ColorMode)
    (* a run of [initColor] *)
| EvLine (w : Writer) (off skip : Z) (buf : list byte) (text : string).
    (* [FormatLine(off, skip, buf)] flushed [text] to [w] *)

Record World : Type := {
  NoColor : bool;        (* the global [color.NoColor] *)
  trace : list Event
}.

Definition emit (e : Event) (w : World) : World :=
  {| NoColor := NoColor w; trace := trace w ++ [e] |}.

(** ** dump.go *)

Definition DefaultLineWidth : Z := 16.

Record Dumper : Type := {
  b : list byte;                  (* bytes.Buffer: the unread bytes *)
  f : option Formatter;
  once : bool;                    (* sync.Once: done *)
  off : Z;
  Output : option Writer;
  LineWidth : Z;
  Color : ColorMode;
  Theme : option ColorTheme;
  Style : DisplayStyle;
  ByteOrder : option binary.ByteOrder;
  Start : Z;
  Skip : Z;
  Length : Z
}.

Definition set_b (v : list byte) (d : Dumper) : Dumper :=
  {| b := v; f := f d; once := once d; off := off d; Output := Output d;
     LineWidth := LineWidth d; Color := Color d; Theme := Theme d;
     Style := Style d; ByteOrder := ByteOrder d; Start := Start d;
     Skip := Skip d; Length := Length d |}.

Definition set_f (v : option Formatter) (d : Dumper) : Dumper :=
  {| b := b d; f := v; once := once d; off := off d; Output := Output d;
     LineWidth := LineWidth d; Color := Color d; Theme := Theme d;
     Style := Style d; ByteOrder := ByteOrder d; Start := Start d;
     Skip := Skip d; Length := Length d |}.

Definition set_once (v : bool) (d : Dumper) : Dumper :=
  {| b := b d; f := f d; once := v; off := off d; Output := Output d;
     LineWidth := LineWidth d; Color := Color d; Theme := Theme d;
     Style := Style d; ByteOrder := ByteOrder d; Start := Start d;
     Skip := Skip d; Length := Length d |}.

Definition set_off (v : Z) (d : Dumper) : Dumper :=
  {| b := b d; f := f d; once := once d; off := v; Output := Output d;
     LineWidth := LineWidth d; Color := Color d; Theme := Theme d;
     Style := Style d; ByteOrder := ByteOrder d; Start := Start d;
     Skip := Skip d; Length := Length d |}.

(** The zero value [new(Dumper)]. *)
Definition zeroDumper : Dumper :=
  {| b := []; f := None; once := false; off := 0; Output := None;
     LineWidth := 0; Color := ColorAuto; Theme := None;
     Style := 0; ByteOrder := None; Start := 0; Skip := 0; Length := 0 |}.

Definition set_Output (v : option Writer) (d : Dumper) : Dumper :=
  {| b := b d; f := f d; once := once d; off := off d; Output := v;
     LineWidth := LineWidth d; Color := Color d; Theme := Theme d;
     Style := Style d; ByteOrder := ByteOrder d; Start := Start d;
     Skip := Skip d; Length := Length d |}.

Definition set_LineWidth (v : Z) (d : Dumper) : Dumper :=
  {| b := b d; f := f d; once := once d; off := off d; Output := Output d;
     LineWidth := v; Color := Color d; Theme := Theme d;
     Style := Style d; ByteOrder := ByteOrder d; Start := Start d;
     Skip := Skip d; Length := Length d |}.

Definition set_Color (v : ColorMode) (d : Dumper) : Dumper :=
  {| b := b d; f := f d; once := once d; off := off d; Output := Output d;
     LineWidth := LineWidth d; Color := v; Theme := Theme d;
     Style := Style d; ByteOrder := ByteOrder d; Start := Start d;
     Skip := Skip d; Length := Length d |}.

Definition set_Theme (v : option ColorTheme) (d : Dumper) : Dumper :=
  {| b := b d; f := f d; once := once d; off := off d; Output := Output d;
     LineWidth := LineWidth d; Color := Color d; Theme := v;
     Style := Style d; ByteOrder := ByteOrder d; Start := Start d;
     Skip := Skip d; Length := Length d |}.

Definition set_Style (v : DisplayStyle) (d : Dumper) : Dumper :=
  {| b := b d; f := f d; once := once d; off := off d; Output := Output d;
     LineWidth := LineWidth d; Color := Color d; Theme := Theme d;
     Style := v; ByteOrder := ByteOrder d; Start := Start d;
     Skip := Skip d; Length := Length d |}.

Definition set_ByteOrder (v : option binary.ByteOrder) (d : Dumper) : Dumper :=
  {| b := b d; f := f d; once := once d; off := off d; Output := Output d;
     LineWidth := LineWidth d; Color := Color d; Theme := Theme d;
     Style := Style d; ByteOrder := v; Start := Start d;
     Skip := Skip d; Length := Length d |}.

Definition set_Start (v : Z) (d : Dumper) : Dumper :=
  {| b := b d; f := f d; once := once d; off := off d; Output := Output d;
     LineWidth := LineWidth d; Color := Color d; Theme := Theme d;
     Style := Style d; ByteOrder := ByteOrder d; Start := v;
     Skip := Skip d; Length := Length d |}.

Definition set_Skip (v : Z) (d : Dumper) : Dumper :=
  {| b := b d; f := f d; once := once d; off := off d; Output := Output d;
     LineWidth := LineWidth d; Color := Color d; Theme := Theme d;
     Style := Style d; ByteOrder := ByteOrder d; Start := Start d;
     Skip := v; Length := Length d |}.

Definition set_Length (v : Z) (d : Dumper) : Dumper :=
  {| b := b d; f := f d; once := once d; off := off d; Output := Output d;
     LineWidth := LineWidth d; Color := Color d; Theme := Theme d;
     Style := Style d; ByteOrder := ByteOrder d; Start := Start d;
     Skip := Skip d; Length := v |}.

(** option.go *)
Definition Option := Dumper -> Dumper.

Module Opt.

Definition Output (w : Writer) : Option := set_Output (Some w).
Definition LineWidth (n : Z) : Option := set_LineWidth n.
Definition Color (c : ColorMode) : Option := set_Color c.
Definition Theme (t : ColorTheme) : Option := set_Theme (Some t).
Definition Style (s : DisplayStyle) : Option := set_Style s.
Definition ByteOrder (o : binary.ByteOrder) : Option := set_ByteOrder (Some o).
Definition Start (o : Z) : Option := set_Start o.
Definition Skip (n : Z) : Option := set_Skip n.
Definition Length (n : Z) : Option := set_Length n.

(** [Range]: the two bounds in order, then skip and length. *)
Definition Range (start end_ : Z) : Option :=
  let '(start, end_) := if end_ <? start then (end_, start) else (start, end_) in
  fun d => set_Length (end_ - start) (set_Skip start d).

Definition NeverColor : Option := Color ColorNever.
Definition AlwaysColor : Option := Color ColorAlways.
Definition TwoBytesHex : Option := Style StyleTwoBytesHex.
Definition LittleEndian : Option := ByteOrder binary.LittleEndian.
Definition BigEndian : Option := ByteOrder binary.BigEndian.

End Opt.

(** [New]: the options applied in order to the zero value. *)
Definition New (x : list Option) : Dumper :=
  List.fold_left (fun d opt => opt d) x zeroDumper.

(** [FormatLine]: the three columns, then [Flush].  The writer does not
    fail in this model, so [errors.Join] joins four nil errors; a panic of
    the style engine leaves the line unflushed. *)
Definition FormatLine (fm : Formatter) (off skip : Z) (buf : list byte)
    (w : World) : outcome unit * World :=
  let offset := formatOffset (NoColor w) fm off in
  match formatContent (NoColor w) fm skip buf with
  | (Ok content, _) =>
      let chars := formatChars (NoColor w) fm skip buf in
      (Ok tt, emit (EvLine (fWriter fm) off skip buf (offset ++ content ++ chars)%string) w)
  | (Err e, _) => (Err e, w)
  | (Panic p, _) => (Panic p, w)
  | (OutOfFuel, _) => (OutOfFuel, w)
  end.

(** *** The dumper's operations: state and error passing *)

Definition State : Type := Dumper * World.

Definition M (A : Type) : Type := State -> outcome A * State.

Definition ret {A} (a : A) : M A := fun st => (Ok a, st).

Definition bind {A B} (m : M A) (k : A -> M B) : M B := fun st =>
  match m st with
  | (Ok a, st') => k a st'
  | (Err e, st') => (Err e, st')
  | (Panic p, st') => (Panic p, st')
  | (OutOfFuel, st') => (OutOfFuel, st')
  end.

Notation "x <- m ;; k" := (bind m (fun x => k))
  (at level 61, m at next level, right associativity).
Notation "m ;;; k" := (bind m (fun _ => k))
  (at level 61, right associativity).

(** [io.ReadFull(&d.b, make([]byte, n))] on a [bytes.Buffer] holding [buf]:
    the bytes read, or the error, and what the buffer holds afterwards.  A
    short read empties the buffer. *)
Definition ReadFull (n : Z) (buf : list byte) : outcome (list byte) * list byte :=
  if n =? 0 then (Ok [], buf)
  else match buf with
       | [] => (Err EOF, [])
       | _ :: _ =>
           if len buf <? n then (Err ErrUnexpectedEOF, [])
           else (Ok (firstn (Z.to_nat n) buf), skipn (Z.to_nat n) buf)
       end.

Section Process.

(** What the platform and the environment decide: the byte order behind
    [binary.NativeEndian], and the value of
    [noColorIsSet() || termIsDumb() || !isTty(w)]. *)
Variable NativeEndian : binary.ByteOrder.
Variable autoNoColor : Writer -> bool.

Definition initColor (w : Writer) (m : ColorMode) (wd : World) : World :=
  {| NoColor := match m with
                | ColorAuto => autoNoColor w
                | ColorAlways => false
                | ColorNever => true
                end;
     trace := trace wd ++ [EvInitColor w m] |}.

Definition init : M unit := fun '(d, w) =>
  let output := match Output d with Some o => o | None => Stdout end in
  let w := initColor output (Color d) w in
  let theme := match Theme d with Some t => t | None => DefaultTheme end in
  let order := match ByteOrder d with Some o => o | None => NativeEndian end in
  let width := if LineWidth d =? 0 then DefaultLineWidth else LineWidth d in
  let fm := match f d with
            | Some fm => fm
            | None => {| fWriter := output; fTheme := theme; fStyle := Style d;
                         fOrder := order; fLineWidth := width |}
            end in
  (Ok tt,
   ({| b := b d; f := Some fm; once := once d; off := off d;
       Output := Some output; LineWidth := width; Color := Color d;
       Theme := Some theme; Style := Style d; ByteOrder := Some order;
       Start := Start d; Skip := Skip d; Length := Length d |}, w)).

(** [d.once.Do(d.init)] *)
Definition onceDo_init : M unit := fun '(d, w) =>
  if once d then (Ok tt, (d, w))
  else (init ;;; (fun '(d, w) => (Ok tt, (set_once true d, w)))) (d, w).

Definition flushLine (all : bool) : M unit := fun '(d, w) =>
  let width := LineWidth d in
  if width =? 0 then (Panic PanicDivide, (d, w)) else
  let off_ := Start d + off d in
  let start := Z.quot off_ width * width in
  let skip := Z.rem off_ width in
  let length := if all then len (b d) else width - skip in
  if length <? 0 then (Panic PanicMakeSlice, (d, w)) else
  match ReadFull length (b d) with
  | (Ok buf, rest) =>
      let d := set_b rest d in
      match f d with
      | None => (Panic PanicNil, (d, w))
      | Some fm =>
          match FormatLine fm start skip buf w with
          | (Ok _, w') => (Ok tt, (set_off (off d + len buf) d, w'))
          | (Err e, w') => (Err e, (d, w'))
          | (Panic p, w') => (Panic p, (d, w'))
          | (OutOfFuel, w') => (OutOfFuel, (d, w'))
          end
      end
  | (Err e, rest) => (Err e, (set_b rest d, w))
  | (Panic p, rest) => (Panic p, (set_b rest d, w))
  | (OutOfFuel, rest) => (OutOfFuel, (set_b rest d, w))
  end.

(** The loop [for int(skip)+d.b.Len() >= d.LineWidth] of [flushLines];
    [skip] is the value computed before the loop.  Every turn that does not
    leave the loop takes at least one byte out of the buffer, so a fuel of
    one more than the buffer's length is never used up
    ([flushLines_terminates]). *)
Fixpoint flushLines_loop (fuel : nat) (skip : Z) (st : State) : outcome unit * State :=
  if LineWidth (fst st) <=? skip + len (b (fst st)) then
    match fuel with
    | O => (OutOfFuel, st)
    | S fuel' =>
        match flushLine false st with
        | (Ok _, st') => flushLines_loop fuel' skip st'
        | r => r
        end
    end
  else (Ok tt, st).

Definition flushLines (all : bool) : M unit :=
  onceDo_init ;;;
  (fun '(d, w) =>
     let width := LineWidth d in
     if width =? 0 then (Panic PanicDivide, (d, w)) else
     let off_ := Start d + off d in
     let skip := Z.rem off_ width in
     (flushLines_loop (S (List.length (b d))) skip ;;;
      (fun '(d, w) =>
         if all && (0 <? len (b d)) then flushLine true (d, w)
         else (Ok tt, (d, w)))) (d, w)).

Definition Flush : M unit := init ;;; flushLines true.

Definition Write (p : list byte) : M Z :=
  (fun '(d, w) => (Ok tt, (set_b (b d ++ p) d, w))) ;;;
  flushLines false ;;;
  ret (len p).

(** A Go slice: the elements below its length, and the elements of the
    backing array between its length and its capacity. *)
Record GoSlice : Type := { elems : list byte; spare : list byte }.

Definition cap (s : GoSlice) : Z := len (elems s) + len (spare s).

(** [b[lo:]]: in range when [0 <= lo <= len(b)]. *)
Definition slice_from (s : GoSlice) (lo : Z) : outcome GoSlice :=
  if (0 <=? lo) && (lo <=? len (elems s))
  then Ok {| elems := skipn (Z.to_nat lo) (elems s); spare := spare s |}
  else Panic PanicSliceBounds.

(** [b[:hi]]: in range when [0 <= hi <= cap(b)]. *)
Definition slice_to (s : GoSlice) (hi : Z) : outcome GoSlice :=
  if (0 <=? hi) && (hi <=? cap s)
  then Ok {| elems := firstn (Z.to_nat hi) (elems s ++ spare s);
             spare := skipn (Z.to_nat hi) (elems s ++ spare s) |}
  else Panic PanicSliceBounds.

(** The two windowing statements at the head of [Bytes]. *)
Definition Bytes_window (bs : GoSlice) (d : Dumper) : outcome (GoSlice * Dumper) :=
  match (if 0 <? Skip d
         then match slice_from bs (Skip d) with
              | Ok bs' => Ok (bs', set_off (Skip d) d)
              | Err e => Err e
              | Panic p => Panic p
              | OutOfFuel => OutOfFuel
              end
         else Ok (bs, d)) with
  | Ok (bs, d) =>
      if 0 <? Length d
      then match slice_to bs (Length d) with
           | Ok bs' => Ok (bs', d)
           | Err e => Err e
           | Panic p => Panic p
           | OutOfFuel => OutOfFuel
           end
      else Ok (bs, d)
  | r => r
  end.

Definition Bytes (bs : GoSlice) (x : list Option) (w : World) : outcome unit * State :=
  let d := New x in
  match Bytes_window bs d with
  | Ok (bs, d) => (Write (elems bs) ;;; Flush) (d, w)
  | Err e => (Err e, (d, w))
  | Panic p => (Panic p, (d, w))
  | OutOfFuel => (OutOfFuel, (d, w))
  end.

(** [String]: [Bytes([]byte(s), x...)]; the conversion allocates a slice
    whose spare capacity the runtime chooses. *)
Definition String_ (s : string) (spare : list byte) (x : list Option) (w : World) :=
  Bytes {| elems := list_byte_of_string s; spare := spare |} x w.

(** A session driven by the caller: the chunks written one after the
    other, up to the first one that fails, then [Flush]. *)
Fixpoint Writes (chunks : list (list byte)) : M unit :=
  match chunks with
  | [] => ret tt
  | p :: chunks' => Write p ;;; Writes chunks'
  end.

Definition session (chunks : list (list byte)) : M unit :=
  Writes chunks ;;; Flush.

End Process.

Definition newline : string := String (ascii_of_N 10) EmptyString.

(** ** Observations on a trace *)

Definition world0 : World := {| NoColor := false; trace := [] |}.

(** The text a run sent to its writers. *)
Fixpoint rendered (t : list Event) : string :=
  match t with
  | [] => EmptyString
  | EvLine _ _ _ _ text :: t' => (text ++ rendered t')%string
  | EvInitColor _ _ :: t' => rendered t'
  end.

(** The line records of a run: offset, leading skip, payload. *)
Fixpoint lines (t : list Event) : list (Z * Z * list byte) :=
  match t with
  | [] => []
  | EvLine _ off skip buf _ :: t' => (off, skip, buf) :: lines t'
  | EvInitColor _ _ :: t' => lines t'
  end.

(** How many times the color decision was taken. *)
Fixpoint colorResolutions (t : list Event) : nat :=
  match t with
  | [] => O
  | EvInitColor _ _ :: t' => S (colorResolutions t')
  | EvLine _ _ _ _ _ :: t' => colorResolutions t'
  end.

(** ** The vocabulary of the specification *)

(** The styles [style.go] names. *)
Definition definedStyle (s : DisplayStyle) : bool :=
  isHexOrCanonical s || isCharOrOctal s || isTwoBytes s.

(** A style's group size in bytes. *)
Definition groupSize (s : DisplayStyle) : Z := if isTwoBytes s then 2 else 1.

Definition ceilDiv (a g : Z) : Z := (a + g - 1) / g.

(** Printable ASCII: the characters from the space to the tilde. *)
Definition printableASCII (c : byte) : bool :=
  (32 <=? byte_val c) && (byte_val c <=? 126).

(** The token of one byte in a one-byte style. *)
Definition token1 (s : DisplayStyle) (c : byte) : string :=
  if (s =? StyleOneByteChar) && negb (unicode.IsPrint (byte_val c))
  then "   " else formatValue s (byte_val c).

(** The tokens of a payload in a two-byte style, two bytes at a time. *)
Fixpoint tokens2 (s : DisplayStyle) (order : binary.ByteOrder) (b : list byte)
    : list string :=
  match b with
  | [] => []
  | [b0] => [formatValue s (byte_val b0)]
  | b0 :: b1 :: rest => formatValue s (binary.Uint16 b0 b1) :: tokens2 s order rest
  end.

(** The offsets [base, base + step, ...] of [n] consecutive lines. *)
Fixpoint progression (base step : Z) (n : nat) : list Z :=
  match n with
  | O => []
  | S n' => base :: progression (base + step) step n'
  end.

Definition offsets (t : list Event) : list Z :=
  List.map (fun l => fst (fst l)) (lines t).

(** The line width a dumper works with once [init] has run. *)
Definition effWidth (d : Dumper) : Z :=
  if LineWidth d =? 0 then DefaultLineWidth else LineWidth d.

(** The state of a run whose lines so far are at [base], [base + width],
    ..., and whose next line is due one [width] further. *)
Definition aligned (base width : Z) (st : State) : Prop :=
  effWidth (fst st) = width
  /\ 0 <= Start (fst st) + off (fst st)
  /\ exists n : nat,
       offsets (trace (snd st)) = progression base width n
       /\ (Start (fst st) + off (fst st)) / width * width
          = base + Z.of_nat n * width.

Definition progressing (base width : Z) (st : State) : Prop :=
  exists n : nat, offsets (trace (snd st)) = progression base width n.

(** The fields no operation after [init] writes. *)
Definition sameConfig (d d' : Dumper) : Prop :=
  Start d' = Start d /\ LineWidth d' = LineWidth d /\ once d' = once d
  /\ f d' = f d /\ Style d' = Style d.

(** The events of a trace that are lines. *)
Definition isLine (e : Event) : bool :=
  match e with
  | EvLine _ _ _ _ _ => true
  | EvInitColor _ _ => false
  end.

Definition lineEvents (t : list Event) : list Event := List.filter isLine t.

(** The text [FormatLine] composes for a line, and the event of a line that
    was formatted and flushed. *)
Definition lineText (nc : bool) (fm : Formatter) (off skip : Z) (buf : list byte)
    : string :=
  (formatOffset nc fm off
   ++ snd (formatContent nc fm skip buf)
   ++ formatChars nc fm skip buf)%string.

Definition lineEvent (nc : bool) (fm : Formatter) (off skip : Z) (buf : list byte)
    : Event :=
  EvLine (fWriter fm) off skip buf (lineText nc fm off skip buf).

(** The first [k] full lines of [buf], the first of them at offset [next]. *)
Fixpoint fullLines (nc : bool) (fm : Formatter) (wd : Z) (k : nat) (next : Z)
    (buf : list byte) : list Event :=
  match k with
  | O => []
  | S k' =>
      lineEvent nc fm next 0 (firstn (Z.to_nat wd) buf)
      :: fullLines nc fm wd k' (next + wd) (skipn (Z.to_nat wd) buf)
  end.

(** The last, short line of a dump, if bytes are left for it. *)
Definition lastLine (nc : bool) (fm : Formatter) (next : Z) (buf : list byte)
    : list Event :=
  match buf with
  | [] => []
  | _ :: _ => [lineEvent nc fm next 0 buf]
  end.

(** What [init] decides from the fields of a dumper: the color, and the
    formatter it keeps or builds. *)
Definition theOutput (d : Dumper) : Writer :=
  match Output d with Some o => o | None => Stdout end.

Definition colorDecision (autoNoColor : Writer -> bool) (d : Dumper) : bool :=
  match Color d with
  | ColorAuto => autoNoColor (theOutput d)
  | ColorAlways => false
  | ColorNever => true
  end.

Definition theFormatter (NativeEndian : binary.ByteOrder) (d : Dumper) : Formatter :=
  match f d with
  | Some fm => fm
  | None =>
      {| fWriter := theOutput d;
         fTheme := match Theme d with Some t => t | None => DefaultTheme end;
         fStyle := Style d;
         fOrder := match ByteOrder d with Some o => o | None => NativeEndian end;
         fLineWidth := effWidth d |}
  end.

(** A dumper whose [init] keeps or builds the formatter [fm], works with
    the line width [wd] and decides [nc] for the color; and a state in which
    [init] has done so. *)
Definition configured (NativeEndian : binary.ByteOrder) (autoNoColor : Writer -> bool)
    (fm : Formatter) (wd : Z) (nc : bool) (d : Dumper) : Prop :=
  theFormatter NativeEndian d = fm
  /\ effWidth d = wd
  /\ colorDecision autoNoColor d = nc.

Definition ready (fm : Formatter) (wd : Z) (nc : bool) (st : State) : Prop :=
  f (fst st) = Some fm /\ LineWidth (fst st) = wd /\ NoColor (snd st) = nc.

(** The state of a dump that started at the aligned offset [next0] and has
    been given [data] so far: the full lines of [data] are out, the rest is
    in the buffer. *)
Definition chunked (NativeEndian : binary.ByteOrder) (autoNoColor : Writer -> bool)
    (fm : Formatter) (wd : Z) (nc : bool) (next0 : Z) (l0 : list Event)
    (data : list byte) (st : State) : Prop :=
  configured NativeEndian autoNoColor fm wd nc (fst st)
  /\ (once (fst st) = true -> ready fm wd nc st)
  /\ exists k : nat,
       Z.of_nat k * wd <= len data < (Z.of_nat k + 1) * wd
       /\ b (fst st) = skipn (k * Z.to_nat wd) data
       /\ Start (fst st) + off (fst st) = next0 + Z.of_nat k * wd
       /\ lineEvents (trace (snd st)) = l0 ++ fullLines nc fm wd k next0 data.
(** ** More of dump.go: [Stream] *)

Module io.

(** An [io.Reader] that does not fail, seen from its consumer: the pieces
    in which it hands over its bytes, then [io.EOF].  Every behavior of such
    a reader is one of these lists, so what holds for all lists holds for
    all readers. *)
Definition Reader : Type := list (list byte).

Definition total (r : Reader) : Z := len (List.concat r).

(** [io.CopyN(io.Discard, r, n)] for a positive [n]: the number of bytes
    discarded, [io.EOF] when the reader ran out before [n], and what the
    reader has left. *)
Fixpoint discard (n : Z) (r : Reader) : Z * Reader :=
  match r with
  | [] => (0, [])
  | c :: r' =>
      if n <=? 0 then (0, r)
      else if len c <=? n then
        let '(m, r'') := discard (n - len c) r' in (len c + m, r'')
      else (n, skipn (Z.to_nat n) c :: r')
  end.

Definition CopyN_Discard (r : Reader) (n : Z) : Z * option error * Reader :=
  let '(written, r') := discard n r in
  (written, if written =? n then None else Some EOF, r').

(** [&io.LimitedReader{R: r, N: n}]: the reader cut after [n] bytes. *)
Fixpoint LimitedReader (r : Reader) (n : Z) : Reader :=
  match r with
  | [] => []
  | c :: r' =>
      if n <=? 0 then []
      else if len c <=? n then c :: LimitedReader r' (n - len c)
      else [firstn (Z.to_nat n) c]
  end.

End io.

(** [io.Copy(d, r)]: one [Write] for every piece that is not empty, up to
    the first [Write] that fails. *)
Fixpoint Copy (NativeEndian : binary.ByteOrder) (autoNoColor : Writer -> bool)
    (r : io.Reader) : M unit :=
  match r with
  | [] => ret tt
  | [] :: r' => Copy NativeEndian autoNoColor r'
  | (c :: p) :: r' =>
      Write NativeEndian autoNoColor (c :: p) ;;; Copy NativeEndian autoNoColor r'
  end.

Definition Stream (NativeEndian : binary.ByteOrder) (autoNoColor : Writer -> bool)
    (r : io.Reader) (x : list Option) (w : World) : outcome unit * State :=
  let d := New x in
  let '(d, err, r) :=
    if 0 <? Skip d
    then let '(n, e, r') := io.CopyN_Discard r (Skip d) in (set_off n d, e, r')
    else (d, None, r) in
  match err with
  | Some e => (Err e, (d, w))
  | None =>
      let r := if 0 <? Length d then io.LimitedReader r (Length d) else r in
      (Copy NativeEndian autoNoColor r ;;; Flush NativeEndian autoNoColor) (d, w)
  end.

(** ** cmd/xd/main.go *)

Module xd.

(** The command-line flags. *)
Record Flags : Type := {
  canonical : bool;      (* -C *)
  oneByteOctal : bool;   (* -b *)
  oneByteHex : bool;     (* -X *)
  oneByteChar : bool;    (* -c *)
  twoBytesDec : bool;    (* -d *)
  twoBytesOct : bool;    (* -e *)
  twoBytesHex : bool;    (* -x *)
  color : ColorMode;     (* -L *)
  noColor : bool;        (* -no-color *)
  length : Z;            (* -n *)
  skip : Z;              (* -s *)
  width : Z              (* -w *)
}.

Definition displayStyle (fl : Flags) : DisplayStyle :=
  if canonical fl then StyleCanonical
  else if oneByteChar fl then StyleOneByteChar
  else if oneByteHex fl then StyleOneByteHex
  else if oneByteOctal fl then StyleOneByteOctal
  else if twoBytesDec fl then StyleTwoBytesDec
  else if twoBytesHex fl then StyleTwoBytesHex
  else if twoBytesOct fl then StyleTwoBytesOctal
  else StyleCanonical.

Definition colorMode (fl : Flags) : ColorMode :=
  if noColor fl then ColorNever else color fl.

(** [dump]: the options from the flags, then [Stream]. *)
Definition opts (fl : Flags) : list Option :=
  [Opt.Style (displayStyle fl); Opt.Color (colorMode fl);
   Opt.Length (length fl); Opt.Skip (skip fl); Opt.LineWidth (width fl)].

Definition dump (NativeEndian : binary.ByteOrder) (autoNoColor : Writer -> bool)
    (fl : Flags) (r : io.Reader) (w : World) : outcome unit * State :=
  Stream NativeEndian autoNoColor r (opts fl) w.

End xd.

(** ** More vocabulary *)

(** The payloads of the lines of a run, in order. *)
Definition payloads (t : list Event) : list (list byte) :=
  List.map snd (lines t).


(** The width in bytes of the tokens of a style, the char style apart. *)
Definition tokenWidth (s : DisplayStyle) : nat :=
  if isHexOrCanonical s then 2%nat
  else if isCharOrOctal s then 3%nat
  else 7%nat.

(** The two byte orders of encoding/binary. *)
Definition stdOrder (order : binary.ByteOrder) : Prop :=
  order = binary.LittleEndian \/ order = binary.BigEndian.


(** A line record whose columns are regular for the formatter [fm]: an
    offset that [%08x] prints with eight digits, a leading skip and a
    payload within the line, in a two-byte style an even leading skip and an
    even line width, in the char style a payload of ASCII. *)
Definition regular (fm : Formatter) (l : Z * Z * list byte) : Prop :=
  let '(off, skip, buf) := l in
  0 <= off < 2 ^ 32
  /\ 0 <= skip
  /\ skip + len buf <= fLineWidth fm
  /\ (isTwoBytes (fStyle fm) = true ->
      Z.even skip = true /\ Z.even (fLineWidth fm) = true)
  /\ (fStyle fm = StyleOneByteChar -> Forall (fun c => byte_val c < 128) buf).

(** The bytes an entry point is to dump out of [data]: those after the
    first [Skip] when [Skip] is positive, and of these the first [Length]
    when [Length] is positive. *)
Definition window (d : Dumper) (data : list byte) : list byte :=
  let rest := if 0 <? Skip d then skipn (Z.to_nat (Skip d)) data else data in
  if 0 <? Length d then firstn (Z.to_nat (Length d)) rest else rest.

(** The pieces of a reader that hold a byte. *)
Definition pieces (r : io.Reader) : list (list byte) :=
  List.filter (fun c => match c with [] => false | _ :: _ => true end) r.

(** A line record that fills a line of [width] bytes: the leading skip and
    the payload end at the end of the line. *)
Definition full (width : Z) (l : Z * Z * list byte) : Prop :=
  let '(off, skip, buf) := l in skip + len buf = width.
(** * The style engine *)

Lemma definedStyle_cases (s : DisplayStyle) :
  definedStyle s = true ->
  s = 0 \/ s = 1 \/ s = 2 \/ s = 3 \/ s = 4 \/ s = 5 \/ s = 6.
Proof.
  unfold definedStyle, isHexOrCanonical, isCharOrOctal, isTwoBytes,
    StyleCanonical, StyleOneByteChar, StyleOneByteHex, StyleOneByteOctal,
    StyleTwoBytesDec, StyleTwoBytesHex, StyleTwoBytesOctal.
  intros H. repeat rewrite orb_true_iff in H. rewrite !Z.eqb_eq in H. lia.
Qed.

Lemma undefinedStyle_cases (s : DisplayStyle) :
  definedStyle s = false -> s < 0 \/ 6 < s.
Proof.
  unfold definedStyle, isHexOrCanonical, isCharOrOctal, isTwoBytes,
    StyleCanonical, StyleOneByteChar, StyleOneByteHex, StyleOneByteOctal,
    StyleTwoBytesDec, StyleTwoBytesHex, StyleTwoBytesOctal.
  intros H. repeat rewrite orb_false_iff in H. rewrite !Z.eqb_neq in H. lia.
Qed.

Lemma isTwoBytes_cases (s : DisplayStyle) :
  isTwoBytes s = true -> s = 4 \/ s = 5 \/ s = 6.
Proof.
  unfold isTwoBytes, StyleTwoBytesDec, StyleTwoBytesHex, StyleTwoBytesOctal.
  intros H. repeat rewrite orb_true_iff in H. rewrite !Z.eqb_eq in H. lia.
Qed.

Ltac style_cases H :=
  first [ apply isTwoBytes_cases in H | apply definedStyle_cases in H ];
  repeat (destruct H as [H | H]); subst.

(** C9. A style outside the constants [style.go] names (the integers 0 to
    6) makes [formatGroup] panic with the style as the panic value, which is
    a panic and not an [error] result; for a named style and a payload that
    is not empty the panicking branch is not reached: the call returns a
    token and the rest of the payload. *)
Theorem formatGroup_panics_exactly_on_unknown_style :
  forall (s : DisplayStyle) (b0 : byte) (rest : list byte) (order : binary.ByteOrder),
    if definedStyle s
    then exists text rest', formatGroup s (b0 :: rest) order = Ok (text, rest')
    else formatGroup s (b0 :: rest) order = Panic (PanicStyle s).
Proof.
  intros s b0 rest order.
  destruct (definedStyle s) eqn:D.
  - style_cases D; unfold formatGroup; cbn [Z.eqb orb Pos.eqb StyleCanonical
      StyleOneByteChar StyleOneByteHex StyleOneByteOctal StyleTwoBytesDec
      StyleTwoBytesHex StyleTwoBytesOctal]; simpl.
    all: try (destruct (unicode.IsPrint (byte_val b0)); eauto; fail).
    all: try (destruct rest; eauto; fail).
    all: eauto.
  - apply undefinedStyle_cases in D.
    unfold formatGroup, StyleCanonical, StyleOneByteChar, StyleOneByteHex,
      StyleOneByteOctal, StyleTwoBytesDec, StyleTwoBytesHex, StyleTwoBytesOctal.
    repeat match goal with
           | |- context [s =? ?k] =>
               destruct (Z.eqb_spec s k); [lia | ]
           end.
    reflexivity.
Qed.

(** The loop of [formatGroups] never runs out of its fuel: what it returns
    with [length b] turns is what it returns with any larger number. *)
Lemma formatGroups_loop_two_bytes (s : DisplayStyle) (order : binary.ByteOrder) :
  isTwoBytes s = true ->
  forall (fuel : nat) (b : list byte),
    (List.length b <= fuel)%nat ->
    formatGroups_loop fuel s b order = Ok (tokens2 s order b).
Proof.
  intros Hs. induction fuel as [| fuel IH]; intros b Hlen.
  - destruct b; [reflexivity | simpl in Hlen; lia].
  - destruct b as [| b0 [| b1 rest]].
    + reflexivity.
    + style_cases Hs; destruct fuel; reflexivity.
    + assert (Hrest : (List.length rest <= fuel)%nat) by (simpl in Hlen; lia).
      specialize (IH rest Hrest).
      style_cases Hs; cbn [formatGroups_loop];
        match goal with
        | |- context [formatGroup ?k (b0 :: b1 :: rest) order] =>
            replace (formatGroup k (b0 :: b1 :: rest) order)
              with (Ok (formatValue k (binary.Uint16 b0 b1), rest)) by reflexivity
        end;
        cbv beta iota; rewrite IH; reflexivity.
Qed.

Lemma formatGroup_one_byte (s : DisplayStyle) (order : binary.ByteOrder)
    (b0 : byte) (rest : list byte) :
  definedStyle s = true -> isTwoBytes s = false ->
  formatGroup s (b0 :: rest) order = Ok (token1 s b0, rest).
Proof.
  intros D T. style_cases D; try discriminate T;
    unfold formatGroup, token1; simpl; try reflexivity.
  destruct (unicode.IsPrint (byte_val b0)); reflexivity.
Qed.

Lemma formatGroups_loop_one_byte (s : DisplayStyle) (order : binary.ByteOrder) :
  definedStyle s = true -> isTwoBytes s = false ->
  forall (fuel : nat) (b : list byte),
    (List.length b <= fuel)%nat ->
    formatGroups_loop fuel s b order = Ok (List.map (token1 s) b).
Proof.
  intros D T. induction fuel as [| fuel IH]; intros b Hlen.
  - destruct b; [reflexivity | simpl in Hlen; lia].
  - destruct b as [| b0 rest]; [reflexivity |].
    cbn [formatGroups_loop]. rewrite formatGroup_one_byte by assumption.
    rewrite IH by (simpl in Hlen; lia). reflexivity.
Qed.

(** [formatGroups] returns for every named style: it neither panics nor
    runs out of fuel. *)
Lemma formatGroups_terminates (s : DisplayStyle) (b : list byte)
    (order : binary.ByteOrder) :
  definedStyle s = true ->
  formatGroups s b order
  = Ok (if isTwoBytes s then tokens2 s order b else List.map (token1 s) b).
Proof.
  intros D. unfold formatGroups. destruct (isTwoBytes s) eqn:T.
  - apply formatGroups_loop_two_bytes; auto.
  - apply formatGroups_loop_one_byte; auto.
Qed.

Lemma list_ind2 {A} (P : list A -> Prop) :
  P [] -> (forall a, P [a]) -> (forall a b l, P l -> P (a :: b :: l)) ->
  forall l, P l.
Proof.
  intros H0 H1 H2.
  assert (H : forall l, P l /\ forall a, P (a :: l)).
  { induction l as [| x l [IHl IHl']]; split; auto. }
  intros l. apply H.
Qed.


Lemma tokens2_length (s : DisplayStyle) (order : binary.ByteOrder) :
  forall p : list byte, len (tokens2 s order p) = (len p + 1) / 2.
Proof.
  unfold len.
  induction p as [| a | a b' l IH] using list_ind2.
  - reflexivity.
  - reflexivity.
  - cbn [tokens2 List.length]. rewrite !Nat2Z.inj_succ.
    replace (Z.succ (Z.succ (Z.of_nat (List.length l))) + 1)
      with ((Z.of_nat (List.length l) + 1) + 1 * 2) by lia.
    rewrite Z.div_add by lia. lia.
Qed.



(** C3. In the one-byte char style the byte 0xe9 is not ASCII, yet
    [formatGroup] renders it as a character token, the two bytes of the
    UTF-8 encoding of U+00E9 after two spaces, and not as the blank slot;
    the character column, on the same byte, tests for ASCII first and shows
    a dot. *)
Theorem formatGroup_char_style_non_ascii :
  forall (rest : list byte) (order : binary.ByteOrder),
    128 <= byte_val xe9
    /\ unicode.IsPrint (byte_val xe9) = true
    /\ formatGroup StyleOneByteChar (xe9 :: rest) order
       = Ok (("  " ++ String (ascii_of_N 195) (String (ascii_of_N 169) EmptyString))%string,
             rest)
    /\ padding StyleOneByteChar 1 = ["   "]
    /\ charGlyph xe9 = "."%char.
Proof.
  intros rest order. repeat split; try reflexivity. vm_compute. discriminate.
Qed.

(** What the char style does on every byte: a character token exactly when
    [unicode.IsPrint] accepts the byte, ASCII or not. *)
Lemma formatGroup_char_style (c : byte) (rest : list byte) (order : binary.ByteOrder) :
  formatGroup StyleOneByteChar (c :: rest) order
  = Ok (if unicode.IsPrint (byte_val c)
        then ("  " ++ fmt.encodeRune (byte_val c))%string else "   ", rest).
Proof.
  unfold formatGroup. simpl.
  destruct (unicode.IsPrint (byte_val c)); reflexivity.
Qed.

(** ** The number of tokens of a line *)

Lemma padding_length (s : DisplayStyle) (n : Z) :
  definedStyle s = true -> 0 <= n ->
  len (padding s n) = n / groupSize s.
Proof.
  intros D Hn. unfold len.
  style_cases D; unfold padding, groupSize, Repeat; simpl;
    rewrite repeat_length.
  all: try (rewrite Z.div_1_r; lia).
  all: unfold twoBytes; rewrite Z.quot_div_nonneg by lia;
    rewrite Z2Nat.id; [reflexivity | apply Z.div_pos; lia].
Qed.

Lemma len_app {A} (l1 l2 : list A) : len (l1 ++ l2) = len l1 + len l2.
Proof. unfold len. rewrite length_app. lia. Qed.

Lemma len_nonneg {A} (l : list A) : 0 <= len l.
Proof. unfold len. lia. Qed.




(** * The character column *)

Lemma spaces_length (n : Z) : String.length (spaces n) = Z.to_nat n.
Proof.
  unfold spaces. replace (Z.to_nat (Z.max n 0)) with (Z.to_nat n) by lia.
  induction (Z.to_nat n); simpl; congruence.
Qed.

Lemma get_string_of_list_ascii (l : list ascii) (i : nat) :
  String.get i (string_of_list_ascii l) = nth_error l i.
Proof.
  revert i. induction l as [| a l IH]; intros [| i]; simpl; auto.
Qed.

Lemma length_string_of_list_ascii (l : list ascii) :
  String.length (string_of_list_ascii l) = List.length l.
Proof. induction l; simpl; congruence. Qed.

(** The glyph of every byte: the byte itself when it is printable ASCII, a
    dot when it is not; since the dot is printable, the glyph is the byte
    exactly when the byte is printable ASCII. *)
Lemma charGlyph_spec (c : byte) :
  charGlyph c = (if printableASCII c then ascii_of_byte c else "."%char)
  /\ (charGlyph c = ascii_of_byte c <-> printableASCII c = true).
Proof.
  destruct c; vm_compute; (split; [reflexivity | split; congruence]).
Qed.

(** C7. The character at the position of a payload byte in the character
    column, that is after the blanks of the leading skip, is the byte itself
    if and only if the byte is printable ASCII, and a dot otherwise. *)
Theorem charTable_glyph :
  forall (fm : Formatter) (skip : Z) (buf : list byte) (i : nat) (c : byte),
    nth_error buf i = Some c ->
    exists g,
      String.get (Z.to_nat skip + i) (charTable fm skip buf) = Some g
      /\ (g = ascii_of_byte c <-> printableASCII c = true)
      /\ (printableASCII c = false -> g = "."%char).
Proof.
  intros fm skip buf i c Hc.
  exists (charGlyph c). split.
  - unfold charTable.
    rewrite Nat.add_comm, <- (spaces_length skip), <- append_correct2.
    rewrite <- append_correct1.
    + rewrite get_string_of_list_ascii, nth_error_map, Hc. reflexivity.
    + rewrite length_string_of_list_ascii, length_map.
      apply nth_error_Some. congruence.
  - destruct (charGlyph_spec c) as [E I]. split; [exact I |].
    intros N. rewrite E, N. reflexivity.
Qed.

Lemma charTable_glyph_witness :
  exists g,
    String.get (Z.to_nat 7 + 1)
      (charTable {| fWriter := Stdout; fTheme := DefaultTheme;
                    fStyle := StyleCanonical; fOrder := binary.LittleEndian;
                    fLineWidth := 16 |} 7 [x57; x07; x6f]) = Some g
    /\ (g = ascii_of_byte x07 <-> printableASCII x07 = true)
    /\ (printableASCII x07 = false -> g = "."%char).
Proof.
  apply (charTable_glyph _ 7 [x57; x07; x6f] 1 x07). reflexivity.
Defined.

(** * The entry point [Bytes] *)




Lemma Skip_7_Length_5_window (extra : list byte) :
  Bytes_window {| elems := list_byte_of_string "Hello, World!"; spare := extra |}
    (New [Opt.Skip 7; Opt.Length 5])
  = Ok ({| elems := list_byte_of_string "World"; spare := x21 :: extra |},
        set_off 7 (New [Opt.Skip 7; Opt.Length 5])).
Proof.
  unfold Bytes_window, slice_from, slice_to, cap.
  change (0 <? Skip (New [Opt.Skip 7; Opt.Length 5])) with true.
  change (Skip (New [Opt.Skip 7; Opt.Length 5])) with 7.
  cbn [elems spare].
  change (list_byte_of_string "Hello, World!")
    with [x48; x65; x6c; x6c; x6f; x2c; x20; x57; x6f; x72; x6c; x64; x21].
  change ((0 <=? 7) && (7 <=? len [x48; x65; x6c; x6c; x6f; x2c; x20; x57; x6f; x72; x6c; x64; x21]))
    with true.
  cbv iota beta.
  change (Length (set_off 7 (New [Opt.Skip 7; Opt.Length 5]))) with 5.
  change (0 <? 5) with true. cbv iota beta. cbn [elems spare].
  change (skipn (Z.to_nat 7) [x48; x65; x6c; x6c; x6f; x2c; x20; x57; x6f; x72; x6c; x64; x21])
    with [x57; x6f; x72; x6c; x64; x21].
  change (0 <=? 5) with true. cbn [andb].
  replace (5 <=? len [x57; x6f; x72; x6c; x64; x21] + len extra) with true
    by (symmetry; apply Z.leb_le; pose proof (len_nonneg extra);
        change (len [x57; x6f; x72; x6c; x64; x21]) with 6; lia).
  reflexivity.
Qed.

(** C8. [String("Hello, World!", Skip(7), Length(5))] returns normally and
    formats one line: offset 0, leading skip 7, payload "World"; its content
    column is seven blank slots, the five bytes and four more blank slots,
    and the text sent to standard output is the line of the repository's
    example, in color when the environment has color on. *)
Theorem Skip_7_Length_5 :
  forall (NativeEndian : binary.ByteOrder) (autoNoColor : Writer -> bool)
         (spare : list byte),
    let run := String_ NativeEndian autoNoColor "Hello, World!" spare
                 [Opt.Skip 7; Opt.Length 5] world0 in
    let nc := autoNoColor Stdout in
    fst run = Ok tt
    /\ lines (trace (snd (snd run))) = [(0, 7, list_byte_of_string "World")]
    /\ formatLine StyleCanonical 16 7 (list_byte_of_string "World") NativeEndian
       = Ok (List.repeat "  " 7 ++ ["57"; "6f"; "72"; "6c"; "64"] ++ List.repeat "  " 4)
    /\ rendered (trace (snd (snd run)))
       = (color.Sprint nc (Offset DefaultTheme) "00000000" ++ " "
          ++ color.SetWriter nc (Content DefaultTheme)
          ++ "                      57  6f 72 6c 64            "
          ++ color.UnsetWriter nc (Content DefaultTheme)
          ++ "  |" ++ color.Sprint nc (Chars DefaultTheme) "       World    "
          ++ "|" ++ newline)%string.
Proof.
  intros NativeEndian autoNoColor spare run nc. subst run nc.
  unfold String_, Bytes. rewrite Skip_7_Length_5_window. cbv iota beta.
  cbn [elems].
  split; [| split; [| split]].
  - vm_compute. reflexivity.
  - vm_compute. reflexivity.
  - vm_compute. reflexivity.
  - vm_compute. destruct (autoNoColor Stdout); reflexivity.
Qed.

(** * The dumper *)

(** ** What the operations leave in the trace *)

Lemma colorResolutions_app (t1 t2 : list Event) :
  colorResolutions (t1 ++ t2) = (colorResolutions t1 + colorResolutions t2)%nat.
Proof.
  induction t1 as [| [? ? | ? ? ? ? ?] t1 IH]; simpl; auto.
Qed.

Lemma lines_app (t1 t2 : list Event) : lines (t1 ++ t2) = lines t1 ++ lines t2.
Proof.
  induction t1 as [| [? ? | ? ? ? ? ?] t1 IH]; simpl; auto. now rewrite IH.
Qed.

Lemma offsets_app (t1 t2 : list Event) :
  offsets (t1 ++ t2) = offsets t1 ++ offsets t2.
Proof. unfold offsets. now rewrite lines_app, map_app. Qed.

Lemma ReadFull_spec (n : Z) (buf : list byte) :
  0 <= n ->
  match ReadFull n buf with
  | (Ok r, rest) => buf = r ++ rest /\ len r = n /\ rest = skipn (Z.to_nat n) buf
  | (Err _, rest) => rest = [] /\ len buf < n
  | _ => False
  end.
Proof.
  intros Hn. unfold ReadFull.
  destruct (Z.eqb_spec n 0) as [E | E].
  - subst n. simpl. auto.
  - destruct buf as [| c bs].
    + split; [reflexivity | unfold len; simpl; lia].
    + destruct (Z.ltb_spec (len (c :: bs)) n) as [S | S].
      * auto.
      * split; [symmetry; apply firstn_skipn |]. split; [| reflexivity].
        unfold len in *. rewrite length_firstn. lia.
Qed.

Lemma sameConfig_refl (d : Dumper) : sameConfig d d.
Proof. repeat split. Qed.

Lemma sameConfig_trans (d1 d2 d3 : Dumper) :
  sameConfig d1 d2 -> sameConfig d2 d3 -> sameConfig d1 d3.
Proof. unfold sameConfig. intuition congruence. Qed.

(** [flushLine], case by case: it stops without a line and without
    touching [off], or it formats the line at the aligned offset, takes its
    bytes from the head of the buffer and advances [off] by their number. *)
Lemma flushLine_spec (all : bool) (d : Dumper) (w : World) :
  forall r d' w',
    flushLine all (d, w) = (r, (d', w')) ->
    sameConfig d d'
    /\ ((r <> Ok tt /\ off d' = off d /\ w' = w)
        \/ (exists fm buf text,
              let width := LineWidth d in
              let off_ := Start d + off d in
              let length := if all then len (b d) else width - Z.rem off_ width in
              r = Ok tt /\ width <> 0 /\ f d = Some fm
              /\ len buf = length /\ b d = buf ++ b d'
              /\ off d' = off d + length
              /\ w' = emit (EvLine (fWriter fm) (Z.quot off_ width * width)
                             (Z.rem off_ width) buf text) w)).
Proof.
  intros r d' w'. unfold flushLine.
  destruct (Z.eqb_spec (LineWidth d) 0) as [W0 | W0].
  { intros H; injection H as <- <- <-. split; [apply sameConfig_refl |].
    left. repeat split; congruence. }
  set (length := if all then len (b d) else LineWidth d - Z.rem (Start d + off d) (LineWidth d)).
  destruct (Z.ltb_spec length 0) as [L | L].
  { intros H; injection H as <- <- <-. split; [apply sameConfig_refl |].
    left. repeat split; congruence. }
  pose proof (ReadFull_spec length (b d) L) as R.
  destruct (ReadFull length (b d)) as [[buf | e | p |] rest]; try contradiction.
  - destruct R as (B & LB & RS). cbn [f set_b].
    destruct (f d) as [fm |] eqn:F.
    + unfold FormatLine.
      destruct (formatContent (NoColor w) fm _ buf) as [[content | e | p |] text].
      * intros H; injection H as <- <- <-. split; [repeat split; auto |].
        right. exists fm, buf. eexists. cbv zeta. fold length. cbn [b off set_off set_b].
        repeat split; auto. lia.
      * intros H; injection H as <- <- <-. split; [repeat split; auto |].
        left. repeat split; congruence.
      * intros H; injection H as <- <- <-. split; [repeat split; auto |].
        left. repeat split; congruence.
      * intros H; injection H as <- <- <-. split; [repeat split; auto |].
        left. repeat split; congruence.
    + intros H; injection H as <- <- <-. split; [repeat split; auto |].
      left. repeat split; congruence.
  - intros H; injection H as <- <- <-. split; [repeat split; auto |].
    left. repeat split; congruence.
Qed.

(** ** Sequencing *)

Lemma bind_snd {A B} (m : M A) (k : A -> M B) (P Q R : State -> Prop) :
  (forall st, P st -> Q (snd (m st))) ->
  (forall a st, Q st -> R (snd (k a st))) ->
  (forall st, Q st -> R st) ->
  forall st, P st -> R (snd (bind m k st)).
Proof.
  intros Hm Hk HQR st HP. unfold bind.
  specialize (Hm st HP). destruct (m st) as [[a | e | p |] st']; simpl in *; auto.
Qed.

(** ** The offsets of the lines *)

Lemma progression_snoc (base step : Z) (n : nat) :
  progression base step n ++ [base + Z.of_nat n * step]
  = progression base step (S n).
Proof.
  revert base. induction n as [| n IH]; intros base.
  - simpl. f_equal. lia.
  - change (base :: (progression (base + step) step n
                      ++ [base + Z.of_nat (S n) * step])
            = base :: progression (base + step) step (S n)).
    f_equal. rewrite <- IH. do 2 f_equal. rewrite Nat2Z.inj_succ. lia.
Qed.

Lemma progression_length (base step : Z) (n : nat) :
  List.length (progression base step n) = n.
Proof. revert base. induction n; intros; simpl; auto. Qed.


Lemma aligned_progressing (base width : Z) (st : State) :
  aligned base width st -> progressing base width st.
Proof. intros (_ & _ & n & H & _). exists n. exact H. Qed.

Lemma next_line_offset (next width : Z) :
  0 <= next -> 0 < width ->
  (next + (width - Z.rem next width)) / width * width = next / width * width + width.
Proof.
  intros Hn Hw. rewrite Z.rem_mod_nonneg by lia.
  pose proof (Z.div_mod next width ltac:(lia)) as E.
  replace (next + (width - next mod width)) with ((next / width + 1) * width) by lia.
  rewrite Z.div_mul by lia. lia.
Qed.

Section Offsets.

Variable NativeEndian : binary.ByteOrder.
Variable autoNoColor : Writer -> bool.
Variables base width : Z.
Hypothesis width_pos : 0 < width.

Lemma effWidth_LineWidth (d : Dumper) :
  LineWidth d <> 0 -> effWidth d = LineWidth d.
Proof.
  unfold effWidth. intros H. destruct (Z.eqb_spec (LineWidth d) 0); congruence.
Qed.

Lemma flushLine_aligned (st : State) :
  aligned base width st -> aligned base width (snd (flushLine false st)).
Proof.
  destruct st as [d w]. intros (W & N & n & O & Q).
  destruct (flushLine false (d, w)) as [r [d' w']] eqn:E.
  apply flushLine_spec in E.
  destruct E as ((S & L & _) & [(_ & F & ->) | (fm & buf & text & H)]);
    cbn [fst snd] in *.
  - unfold aligned, effWidth; cbn [fst snd].
    rewrite S, L, F. split; [exact W |]. split; [exact N |]. eauto.
  - cbv zeta in H. destruct H as (_ & W0 & _ & _ & _ & Hoff & ->).
    rewrite effWidth_LineWidth in W by assumption.
    unfold aligned, effWidth; cbn [fst snd]. rewrite S, L, Hoff.
    rewrite <- W in *. clear W.
    split; [destruct (Z.eqb_spec (LineWidth d) 0); congruence |].
    assert (R : 0 <= Z.rem (Start d + off d) (LineWidth d) < LineWidth d)
      by (apply Z.rem_bound_pos; lia).
    split; [lia |]. exists (Datatypes.S n). split.
    + unfold emit; cbn [trace]. rewrite offsets_app, O.
      unfold offsets at 1; cbn [lines List.map fst].
      rewrite Z.quot_div_nonneg, Q by lia. apply progression_snoc.
    + replace (Start d + (off d + (LineWidth d - Z.rem (Start d + off d) (LineWidth d))))
        with ((Start d + off d) + (LineWidth d - Z.rem (Start d + off d) (LineWidth d)))
        by lia.
      rewrite next_line_offset, Q by lia. lia.
Qed.

Lemma flushLine_progressing (all : bool) (st : State) :
  aligned base width st -> progressing base width (snd (flushLine all st)).
Proof.
  destruct st as [d w]. intros (W & N & n & O & Q).
  destruct (flushLine all (d, w)) as [r [d' w']] eqn:E.
  apply flushLine_spec in E.
  destruct E as (_ & [(_ & _ & ->) | (fm & buf & text & H)]); cbn [fst snd] in *.
  - exists n. exact O.
  - cbv zeta in H. destruct H as (_ & W0 & _ & _ & _ & _ & ->).
    rewrite effWidth_LineWidth in W by assumption. rewrite <- W in *.
    exists (Datatypes.S n). unfold emit; cbn [snd trace].
    rewrite offsets_app, O. unfold offsets at 1; cbn [lines List.map fst].
    rewrite Z.quot_div_nonneg, Q by lia. apply progression_snoc.
Qed.

Lemma flushLines_loop_aligned (fuel : nat) (skip : Z) :
  forall st, aligned base width st ->
             aligned base width (snd (flushLines_loop fuel skip st)).
Proof.
  induction fuel as [| fuel IH]; intros st A; cbn [flushLines_loop];
    destruct (LineWidth (fst st) <=? skip + len (b (fst st))); auto.
  pose proof (flushLine_aligned st A) as A'.
  destruct (flushLine false st) as [[[] | e | p |] st']; auto.
Qed.

Lemma init_aligned (st : State) :
  aligned base width st -> aligned base width (snd (init NativeEndian autoNoColor st)).
Proof.
  destruct st as [d w]. intros (W & N & n & O & Q).
  unfold aligned, init, initColor, effWidth in *; cbn [fst snd Start off LineWidth trace] in *.
  split.
  - destruct (Z.eqb_spec (LineWidth d) 0) as [E | E]; [subst width; reflexivity |].
    destruct (Z.eqb_spec (LineWidth d) 0); congruence.
  - split; [exact N |]. exists n. split; [| exact Q].
    rewrite offsets_app, O. apply app_nil_r.
Qed.

Lemma onceDo_init_aligned (st : State) :
  aligned base width st ->
  aligned base width (snd (onceDo_init NativeEndian autoNoColor st)).
Proof.
  destruct st as [d w]. intros A. unfold onceDo_init.
  destruct (once d); [exact A |].
  apply (bind_snd _ _ (aligned base width) (aligned base width)); auto.
  - apply init_aligned.
  - intros _ [d' w'] A'. exact A'.
Qed.

Lemma flushLines_aligned (st : State) :
  aligned base width st ->
  aligned base width (snd (flushLines NativeEndian autoNoColor false st)).
Proof.
  unfold flushLines.
  apply (bind_snd _ _ (aligned base width) (aligned base width)); auto.
  - apply onceDo_init_aligned.
  - intros _ [d w] A. destruct (LineWidth d =? 0); [exact A |].
    apply (bind_snd _ _ (aligned base width) (aligned base width)); auto.
    + apply flushLines_loop_aligned.
    + intros _ [d' w'] A'. exact A'.
Qed.

Lemma flushLines_progressing (st : State) :
  aligned base width st ->
  progressing base width (snd (flushLines NativeEndian autoNoColor true st)).
Proof.
  unfold flushLines.
  apply (bind_snd _ _ (aligned base width) (aligned base width)).
  - apply onceDo_init_aligned.
  - intros _ [d w] A. destruct (LineWidth d =? 0);
      [apply aligned_progressing; exact A |].
    apply (bind_snd _ _ (aligned base width) (aligned base width)); auto.
    + apply flushLines_loop_aligned.
    + intros _ [d' w'] A'. destruct (true && (0 <? len (b d'))).
      * apply flushLine_progressing; exact A'.
      * apply aligned_progressing; exact A'.
    + apply aligned_progressing.
  - apply aligned_progressing.
Qed.

Lemma Write_aligned (p : list byte) (st : State) :
  aligned base width st ->
  aligned base width (snd (Write NativeEndian autoNoColor p st)).
Proof.
  unfold Write.
  apply (bind_snd _ _ (aligned base width) (aligned base width)); auto.
  - intros [d w] A. exact A.
  - intros _. apply (bind_snd _ _ (aligned base width) (aligned base width)); auto.
    apply flushLines_aligned.
Qed.

Lemma Writes_aligned (chunks : list (list byte)) :
  forall st, aligned base width st ->
             aligned base width (snd (Writes NativeEndian autoNoColor chunks st)).
Proof.
  induction chunks as [| p chunks IH]; [auto |].
  cbn [Writes].
  apply (bind_snd _ _ (aligned base width) (aligned base width)); auto.
  apply Write_aligned.
Qed.

Lemma session_progressing (chunks : list (list byte)) (st : State) :
  aligned base width st ->
  progressing base width (snd (session NativeEndian autoNoColor chunks st)).
Proof.
  unfold session.
  apply (bind_snd _ _ (aligned base width) (aligned base width)).
  - apply Writes_aligned.
  - intros _. unfold Flush.
    apply (bind_snd _ _ (aligned base width) (aligned base width)).
    + apply init_aligned.
    + intros _. apply flushLines_progressing.
    + apply aligned_progressing.
  - apply aligned_progressing.
Qed.

End Offsets.

(** The offsets of a session's lines, from a dumper at any first offset
    that is not negative. *)
Lemma session_offsets_progression (NativeEndian : binary.ByteOrder)
    (autoNoColor : Writer -> bool) (d : Dumper) (w : World)
    (chunks : list (list byte)) :
  0 <= LineWidth d ->
  0 <= Start d + off d ->
  lines (trace w) = [] ->
  exists n : nat,
    offsets (trace (snd (snd (session NativeEndian autoNoColor chunks (d, w)))))
    = progression ((Start d + off d) / effWidth d * effWidth d) (effWidth d) n.
Proof.
  intros HW HS Hlines.
  assert (Wpos : 0 < effWidth d).
  { unfold effWidth, DefaultLineWidth.
    destruct (Z.eqb_spec (LineWidth d) 0); lia. }
  apply (session_progressing NativeEndian autoNoColor _ _ Wpos chunks (d, w)).
  unfold aligned; cbn [fst snd].
  split; [reflexivity |]. split; [exact HS |].
  exists O. split; [unfold offsets; rewrite Hlines; reflexivity |].
  cbn [Z.of_nat]. lia.
Qed.



Example session_offsets_example :
  offsets (trace (snd (snd
    (session binary.LittleEndian (fun _ => true)
       [list_byte_of_string "Hello, "; list_byte_of_string "World!"]
       (set_off 7 (New [Opt.Skip 7; Opt.Start 4100; Opt.LineWidth 8]), world0)))))
  = [4104; 4112].
Proof. vm_compute. reflexivity. Qed.

(** ** The color decision *)

Section Color.

Variable NativeEndian : binary.ByteOrder.
Variable autoNoColor : Writer -> bool.

Lemma flushLine_colorResolutions (all : bool) (st : State) :
  colorResolutions (trace (snd (snd (flushLine all st))))
  = colorResolutions (trace (snd st)).
Proof.
  destruct st as [d w].
  destruct (flushLine all (d, w)) as [r [d' w']] eqn:E.
  apply flushLine_spec in E.
  destruct E as (_ & [(_ & _ & ->) | (fm & buf & text & H)]); cbn [fst snd].
  - reflexivity.
  - cbv zeta in H. destruct H as (_ & _ & _ & _ & _ & _ & ->).
    unfold emit; cbn [trace]. rewrite colorResolutions_app. simpl. lia.
Qed.

Lemma flushLines_loop_colorResolutions (fuel : nat) (skip : Z) :
  forall st,
    colorResolutions (trace (snd (snd (flushLines_loop fuel skip st))))
    = colorResolutions (trace (snd st)).
Proof.
  induction fuel as [| fuel IH]; intros st; cbn [flushLines_loop];
    destruct (LineWidth (fst st) <=? skip + len (b (fst st))); auto.
  pose proof (flushLine_colorResolutions false st) as E.
  destruct (flushLine false st) as [[[] | e | p |] st']; auto.
  rewrite IH. exact E.
Qed.

Lemma init_colorResolutions (st : State) :
  fst (init NativeEndian autoNoColor st) = Ok tt
  /\ colorResolutions (trace (snd (snd (init NativeEndian autoNoColor st))))
     = S (colorResolutions (trace (snd st)))
  /\ once (fst (snd (init NativeEndian autoNoColor st))) = once (fst st)
  /\ LineWidth (fst (snd (init NativeEndian autoNoColor st))) <> 0.
Proof.
  destruct st as [d w]. unfold init, initColor; cbn [fst snd trace once LineWidth].
  rewrite colorResolutions_app. simpl.
  repeat split; try lia.
  unfold DefaultLineWidth. destruct (Z.eqb_spec (LineWidth d) 0); lia.
Qed.

(** What [flushLines] adds to the count: one resolution when the latch is
    open, none when it is shut. *)
Lemma flushLines_colorResolutions (all : bool) (st : State) :
  colorResolutions (trace (snd (snd (flushLines NativeEndian autoNoColor all st))))
  = (colorResolutions (trace (snd st)) + (if once (fst st) then 0 else 1))%nat.
Proof.
  destruct st as [d w]. unfold flushLines, bind, onceDo_init. cbn [fst snd].
  destruct (once d) eqn:O.
  - destruct (LineWidth d =? 0); cbn [fst snd]; [lia |].
    pose proof (flushLines_loop_colorResolutions (S (List.length (b d)))
                  (Z.rem (Start d + off d) (LineWidth d)) (d, w)) as L.
    destruct (flushLines_loop _ _ (d, w)) as [[[] | e | p |] [d' w']];
      cbn [fst snd] in *; try lia.
    destruct (all && (0 <? len (b d'))).
    + rewrite flushLine_colorResolutions. cbn [snd]. lia.
    + cbn [snd]. lia.
  - unfold bind.
    destruct (init_colorResolutions (d, w)) as (I1 & I2 & _ & _).
    destruct (init NativeEndian autoNoColor (d, w)) as [r [d1 w1]].
    cbn [fst snd] in *. subst r.
    destruct (LineWidth (set_once true d1) =? 0); cbn [fst snd]; [lia |].
    pose proof (flushLines_loop_colorResolutions
                  (S (List.length (b (set_once true d1))))
                  (Z.rem (Start (set_once true d1) + off (set_once true d1))
                     (LineWidth (set_once true d1)))
                  (set_once true d1, w1)) as L.
    destruct (flushLines_loop _ _ (set_once true d1, w1)) as [[[] | e | p |] [d' w']];
      cbn [fst snd] in *; try lia.
    destruct (all && (0 <? len (b d'))).
    + rewrite flushLine_colorResolutions. cbn [snd]. lia.
    + cbn [snd]. lia.
Qed.

End Color.

(** C4.  [Flush] calls [init] itself, outside the [sync.Once] latch that
    [flushLines] goes through: every [Flush] runs the color resolution
    again, once when the latch is already shut and twice on a dumper that
    has not been used; a new dumper that is written to and flushed has
    resolved its color twice. *)
Theorem Flush_resolves_color_again :
  forall (NativeEndian : binary.ByteOrder) (autoNoColor : Writer -> bool)
         (d : Dumper) (w : World),
    colorResolutions (trace (snd (snd (Flush NativeEndian autoNoColor (d, w)))))
    = (colorResolutions (trace w) + (if once d then 1 else 2))%nat
    /\ colorResolutions (trace (snd (snd
         (session NativeEndian autoNoColor [[x41]] (New [], world0))))) = 2%nat.
Proof.
  intros NativeEndian autoNoColor d w. split.
  - unfold Flush, bind.
    destruct (init_colorResolutions NativeEndian autoNoColor (d, w))
      as (I1 & I2 & I3 & _).
    destruct (init NativeEndian autoNoColor (d, w)) as [r [d1 w1]].
    cbn [fst snd] in *. subst r.
    rewrite flushLines_colorResolutions. cbn [fst snd]. rewrite I2, I3.
    destruct (once d); lia.
  - vm_compute. reflexivity.
Qed.

(** ** Totality: the fuel of the two loops is never used up *)

Lemma formatGroup_shorter (s : DisplayStyle) (p : list byte)
    (order : binary.ByteOrder) (text : string) (rest : list byte) :
  formatGroup s p order = Ok (text, rest) ->
  (List.length rest < List.length p)%nat.
Proof.
  unfold formatGroup.
  destruct ((s =? StyleCanonical) || (s =? StyleOneByteHex) || (s =? StyleOneByteOctal)).
  { destruct p; intros H; inversion H; subst; simpl; lia. }
  destruct (s =? StyleOneByteChar).
  { destruct p as [| c p]; [discriminate |].
    destruct (unicode.IsPrint (byte_val c)).
    - intros H; inversion H; subst; simpl; lia.
    - destruct (padding s 1); intros H; inversion H; subst; simpl; lia. }
  destruct ((s =? StyleTwoBytesDec) || (s =? StyleTwoBytesHex) || (s =? StyleTwoBytesOctal)).
  { destruct p as [| c [| c' p]]; intros H; inversion H; subst; simpl; lia. }
  discriminate.
Qed.

Lemma formatGroups_loop_fuel (s : DisplayStyle) (order : binary.ByteOrder) :
  forall (fuel : nat) (p : list byte),
    (List.length p <= fuel)%nat ->
    formatGroups_loop fuel s p order <> OutOfFuel.
Proof.
  induction fuel as [| fuel IH]; intros p Hlen.
  - destruct p; [discriminate | simpl in Hlen; lia].
  - destruct p as [| c p]; [discriminate |].
    cbn [formatGroups_loop].
    destruct (formatGroup s (c :: p) order) as [[text rest] | e | q |] eqn:G;
      try discriminate.
    + apply formatGroup_shorter in G.
      specialize (IH rest ltac:(simpl in *; lia)).
      destruct (formatGroups_loop fuel s rest order); congruence.
    + exfalso. unfold formatGroup in G.
      repeat match type of G with
             | (if ?c then _ else _) = _ => destruct c
             | match ?l with _ => _ end = _ => destruct l
             end; discriminate.
Qed.

Lemma FormatLine_total (fm : Formatter) (off skip : Z) (buf : list byte) (w : World) :
  fst (FormatLine fm off skip buf w) <> OutOfFuel.
Proof.
  unfold FormatLine, formatContent, formatLine.
  pose proof (formatGroups_loop_fuel (fStyle fm) (fOrder fm) (List.length buf) buf
                (Nat.le_refl _)) as G.
  fold (formatGroups (fStyle fm) buf (fOrder fm)) in G.
  destruct (formatGroups (fStyle fm) buf (fOrder fm)); simpl; congruence.
Qed.

Lemma flushLine_total (all : bool) (st : State) :
  fst (flushLine all st) <> OutOfFuel.
Proof.
  destruct st as [d w]. unfold flushLine.
  destruct (LineWidth d =? 0); [discriminate |].
  match goal with |- context [?x <? 0] => destruct (Z.ltb_spec x 0) as [L | L] end;
    [discriminate |].
  match goal with |- context [ReadFull ?n ?p] =>
    pose proof (ReadFull_spec n p L) as R; destruct (ReadFull n p) as [[buf | e | p' |] rest]
  end; try contradiction; try discriminate.
  cbn [f set_b]. destruct (f d) as [fm |]; [| discriminate].
  match goal with |- context [FormatLine ?a ?b ?c ?e ?g] =>
    pose proof (FormatLine_total a b c e g) as T;
    destruct (FormatLine a b c e g) as [[[] | e' | p' |] w']
  end; simpl in *; congruence.
Qed.

Lemma flushLines_loop_total (skip : Z) :
  forall (fuel : nat) (st : State),
    (List.length (b (fst st)) < fuel)%nat ->
    fst (flushLines_loop fuel skip st) <> OutOfFuel.
Proof.
  induction fuel as [| fuel IH]; intros [d w] Hfuel; [simpl in Hfuel; lia |].
  cbn [flushLines_loop fst].
  destruct (LineWidth d <=? skip + len (b d)); [| discriminate].
  pose proof (flushLine_total false (d, w)) as T.
  destruct (flushLine false (d, w)) as [[[] | e | p |] [d' w']] eqn:E;
    simpl in T; try congruence; try discriminate.
  apply IH. cbn [fst] in *.
  apply flushLine_spec in E.
  destruct E as (_ & [(N & _) | (fm & buf & text & H)]); [congruence |].
  cbv zeta in H. destruct H as (_ & W0 & _ & LB & B & _).
  pose proof (Z.rem_bound_abs (Start d + off d) (LineWidth d) W0) as RB.
  assert (0 < len buf) by (pose proof (len_nonneg buf); lia).
  rewrite B in Hfuel. rewrite length_app in Hfuel. unfold len in *. lia.
Qed.

(** [flushLines] returns, with a result, an error or a panic, from every
    state. *)
Lemma flushLines_terminates (NativeEndian : binary.ByteOrder)
    (autoNoColor : Writer -> bool) (all : bool) (st : State) :
  fst (flushLines NativeEndian autoNoColor all st) <> OutOfFuel.
Proof.
  destruct st as [d w]. unfold flushLines, bind, onceDo_init.
  assert (K : forall d1 w1,
             fst ((fun '(d, w) =>
                     if LineWidth d =? 0 then (Panic PanicDivide, (d, w))
                     else
                       match flushLines_loop (S (List.length (b d)))
                               (Z.rem (Start d + off d) (LineWidth d)) (d, w) with
                       | (Ok _, st') =>
                           (fun '(d, w) =>
                              if all && (0 <? len (b d)) then flushLine true (d, w)
                              else (Ok tt, (d, w))) st'
                       | (Err e, st') => (Err e, st')
                       | (Panic p, st') => (Panic p, st')
                       | (OutOfFuel, st') => (OutOfFuel, st')
                       end) (d1, w1)) <> OutOfFuel).
  { intros d1 w1. cbv beta iota.
    destruct (LineWidth d1 =? 0); [discriminate |].
    pose proof (flushLines_loop_total (Z.rem (Start d1 + off d1) (LineWidth d1))
                  (S (List.length (b d1))) (d1, w1) ltac:(simpl; lia)) as T.
    destruct (flushLines_loop _ _ (d1, w1)) as [[[] | e | p |] [d' w']];
      simpl in T; try congruence; try discriminate.
    destruct (all && (0 <? len (b d'))); [apply flushLine_total | discriminate]. }
  destruct (once d).
  - apply K.
  - unfold bind, init. apply K.
Qed.

(** ** Chunking *)

(** C1.  With a start offset of 4 and the default width, 25 bytes written
    in one [Write] and the same bytes written as 12 and 13 are not dumped
    alike.  [flushLines] keeps the leading skip it computed before its
    loop; after the first line, which takes 12 bytes, the stale 4 + 13
    bytes look like a full line, [flushLine] asks for 16 bytes, the short
    read fails with [io.ErrUnexpectedEOF] and the 13 bytes are gone.
    Written as 12 and 13 bytes, the second [Write] starts from a leading
    skip of 0 and the 13 bytes come out as the last line. *)
Theorem chunking_changes_output :
  let data := list_byte_of_string "0123456789abcdefghijklmno" in
  let x := [Opt.Start 4; Opt.NeverColor] in
  let whole := Bytes binary.LittleEndian (fun _ => true)
                 {| elems := data; spare := [] |} x world0 in
  let split := session binary.LittleEndian (fun _ => true)
                 [firstn 12 data; skipn 12 data] (New x, world0) in
  firstn 12 data ++ skipn 12 data = data
  /\ fst whole = Err ErrUnexpectedEOF
  /\ rendered (trace (snd (snd whole)))
     = ("00000000              30 31 32 33  34 35 36 37 38 39 61 62  |    0123456789ab|"
        ++ newline)%string
  /\ fst split = Ok tt
  /\ rendered (trace (snd (snd split)))
     = ("00000000              30 31 32 33  34 35 36 37 38 39 61 62  |    0123456789ab|"
        ++ newline ++
        "00000010  63 64 65 66 67 68 69 6a  6b 6c 6d 6e 6f           |cdefghijklmno   |"
        ++ newline)%string
  /\ rendered (trace (snd (snd whole))) <> rendered (trace (snd (snd split))).
Proof.
  cbv zeta.
  split; [reflexivity |].
  split; [vm_compute; reflexivity |].
  split; [vm_compute; reflexivity |].
  split; [vm_compute; reflexivity |].
  split; [vm_compute; reflexivity |].
  vm_compute. discriminate.
Qed.

(** ** The entry point and the session *)

Lemma session_single (NativeEndian : binary.ByteOrder) (autoNoColor : Writer -> bool)
    (p : list byte) (st : State) :
  session NativeEndian autoNoColor [p] st
  = (Write NativeEndian autoNoColor p ;;; Flush NativeEndian autoNoColor) st.
Proof.
  unfold session. cbn [Writes]. unfold bind, ret.
  destruct (Write NativeEndian autoNoColor p st) as [[z | e | q |] st']; reflexivity.
Qed.

(** [Bytes] sets [off] to the skip count and runs a session of one chunk:
    its lines go up by the line width from the largest multiple of it below
    start + skip. *)
Lemma Bytes_offsets_aligned (NativeEndian : binary.ByteOrder)
    (autoNoColor : Writer -> bool) (bs : GoSlice) (x : list Option) (w : World) :
  0 <= LineWidth (New x) ->
  0 <= Skip (New x) ->
  0 <= Start (New x) + Skip (New x) ->
  off (New x) = 0 ->
  lines (trace w) = [] ->
  let width := effWidth (New x) in
  let base := (Start (New x) + Skip (New x)) / width * width in
  let offs := offsets (trace (snd (snd (Bytes NativeEndian autoNoColor bs x w)))) in
  offs = progression base width (List.length offs).
Proof.
  intros HW HK HS Hoff Hl width base offs. subst offs. unfold Bytes.
  destruct (Bytes_window bs (New x)) as [[bs' d'] | e | p |] eqn:E;
    try (cbn [snd]; unfold offsets; rewrite Hl; reflexivity).
  rewrite <- session_single.
  assert (D : d' = New x \/ (d' = set_off (Skip (New x)) (New x))).
  { unfold Bytes_window in E.
    destruct (0 <? Skip (New x)).
    - destruct (slice_from bs (Skip (New x))); try discriminate E.
      destruct (0 <? Length (set_off (Skip (New x)) (New x))).
      + destruct (slice_to a _); inversion E; auto.
      + inversion E; auto.
    - destruct (0 <? Length (New x)).
      + destruct (slice_to bs _); inversion E; auto.
      + inversion E; auto. }
  assert (Hd : LineWidth d' = LineWidth (New x) /\ Start d' = Start (New x)
               /\ Skip d' = Skip (New x) /\ off d' = Skip (New x)).
  { destruct D as [-> | ->]; cbn [LineWidth Start Skip off set_off]; repeat split.
    unfold Bytes_window in E. destruct (Z.ltb_spec 0 (Skip (New x))) as [P | P].
    - exfalso.
      destruct (slice_from bs (Skip (New x))); try discriminate E.
      destruct (0 <? Length (set_off (Skip (New x)) (New x))).
      + destruct (slice_to a _); inversion E as [[E1 E2]].
        apply (f_equal off) in E2. cbn [off set_off] in E2. lia.
      + inversion E as [[E1 E2]].
        apply (f_equal off) in E2. cbn [off set_off] in E2. lia.
    - lia. }
  destruct Hd as (H1 & H2 & H3 & H4).
  destruct (session_offsets_progression NativeEndian autoNoColor d' w [elems bs'])
    as [n P]; try assumption; try lia.
  unfold effWidth in P, width, base. rewrite H1, H2, H4 in P.
  rewrite P at 1. now rewrite P, progression_length.
Qed.

(** ** Chunking from an aligned start *)

Lemma lineEvents_app (t1 t2 : list Event) :
  lineEvents (t1 ++ t2) = lineEvents t1 ++ lineEvents t2.
Proof. apply filter_app. Qed.

Lemma rendered_lineEvents (t : list Event) : rendered (lineEvents t) = rendered t.
Proof.
  induction t as [| [? ? | ? ? ? ? ?] t IH]; simpl; auto. now rewrite IH.
Qed.

Lemma FormatLine_defined (fm : Formatter) (off skip : Z) (buf : list byte) (w : World) :
  definedStyle (fStyle fm) = true ->
  FormatLine fm off skip buf w
  = (Ok tt, emit (lineEvent (NoColor w) fm off skip buf) w).
Proof.
  intros D. unfold FormatLine, lineEvent, lineText, formatContent, formatLine.
  rewrite formatGroups_terminates by assumption. reflexivity.
Qed.

Section Chunking.

Variable NativeEndian : binary.ByteOrder.
Variable autoNoColor : Writer -> bool.
Variable fm : Formatter.
Variable wd : Z.
Variable nc : bool.
Hypothesis wd_pos : 0 < wd.
Hypothesis style_defined : definedStyle (fStyle fm) = true.

Lemma ReadFull_enough (n : Z) (buf : list byte) :
  0 < n <= len buf ->
  ReadFull n buf = (Ok (firstn (Z.to_nat n) buf), skipn (Z.to_nat n) buf).
Proof.
  intros H. unfold ReadFull.
  destruct (Z.eqb_spec n 0); [lia |].
  destruct buf as [| c buf]; [unfold len in H; simpl in H; lia |].
  destruct (Z.ltb_spec (len (c :: buf)) n); [lia | reflexivity].
Qed.

Lemma aligned_quot_rem (next : Z) :
  0 <= next -> next mod wd = 0 ->
  Z.quot next wd * wd = next /\ Z.rem next wd = 0.
Proof.
  intros N A. rewrite Z.quot_div_nonneg, Z.rem_mod_nonneg by lia.
  pose proof (Z.div_mod next wd ltac:(lia)). split; lia.
Qed.

(** One full line, from a dumper that is initialized and aligned. *)
Lemma flushLine_full (d : Dumper) (w : World) :
  f d = Some fm -> LineWidth d = wd -> NoColor w = nc ->
  0 <= Start d + off d -> (Start d + off d) mod wd = 0 ->
  wd <= len (b d) ->
  flushLine false (d, w)
  = (Ok tt,
     (set_off (off d + wd) (set_b (skipn (Z.to_nat wd) (b d)) d),
      emit (lineEvent nc fm (Start d + off d) 0 (firstn (Z.to_nat wd) (b d))) w)).
Proof.
  intros F W C N A L. unfold flushLine. rewrite W.
  destruct (aligned_quot_rem _ N A) as [Q R]. rewrite Q, R, Z.sub_0_r.
  destruct (Z.eqb_spec wd 0); [lia |].
  destruct (Z.ltb_spec wd 0); [lia |].
  rewrite ReadFull_enough by lia. cbn [f set_b]. rewrite F.
  rewrite FormatLine_defined, C by assumption.
  repeat f_equal. cbn [off set_b]. f_equal.
  unfold len. rewrite length_firstn. unfold len in L. lia.
Qed.

(** The last line, from a dumper that is initialized and aligned. *)
Lemma flushLine_rest (d : Dumper) (w : World) :
  f d = Some fm -> LineWidth d = wd -> NoColor w = nc ->
  0 <= Start d + off d -> (Start d + off d) mod wd = 0 ->
  0 < len (b d) ->
  flushLine true (d, w)
  = (Ok tt,
     (set_off (off d + len (b d)) (set_b [] d),
      emit (lineEvent nc fm (Start d + off d) 0 (b d)) w)).
Proof.
  intros F W C N A L. unfold flushLine. rewrite W.
  destruct (aligned_quot_rem _ N A) as [Q R]. rewrite Q, R.
  destruct (Z.eqb_spec wd 0); [lia |].
  destruct (Z.ltb_spec (len (b d)) 0); [lia |].
  rewrite ReadFull_enough by lia.
  assert (E : Z.to_nat (len (b d)) = List.length (b d)) by (unfold len; lia).
  rewrite E, firstn_all, skipn_all.
  cbn [f set_b]. rewrite F.
  rewrite FormatLine_defined, C by assumption. reflexivity.
Qed.

Lemma fullLines_app (k : nat) :
  forall (next : Z) (data p : list byte),
    Z.of_nat k * wd <= len data ->
    fullLines nc fm wd k next (data ++ p) = fullLines nc fm wd k next data.
Proof.
  induction k as [| k IH]; intros next data p H; [reflexivity |].
  rewrite Nat2Z.inj_succ in H. unfold len in H.
  cbn [fullLines].
  rewrite firstn_app, skipn_app.
  replace (Z.to_nat wd - List.length data)%nat with O by lia.
  cbn [firstn skipn]. rewrite app_nil_r.
  rewrite IH; [reflexivity |].
  unfold len. rewrite length_skipn. lia.
Qed.

Lemma fullLines_plus (k1 k2 : nat) :
  forall (next : Z) (buf : list byte),
    fullLines nc fm wd (k1 + k2) next buf
    = fullLines nc fm wd k1 next buf
      ++ fullLines nc fm wd k2 (next + Z.of_nat k1 * wd)
           (skipn (k1 * Z.to_nat wd) buf).
Proof.
  induction k1 as [| k1 IH]; intros next buf.
  - cbn [Nat.add fullLines app Nat.mul skipn Z.of_nat].
    replace (next + 0 * wd) with next by lia. reflexivity.
  - cbn [Nat.add fullLines app]. f_equal. rewrite IH. f_equal.
    rewrite skipn_skipn.
    replace (next + wd + Z.of_nat k1 * wd) with (next + Z.of_nat (S k1) * wd)
      by (rewrite Nat2Z.inj_succ; lia).
    replace (k1 * Z.to_nat wd + Z.to_nat wd)%nat with (S k1 * Z.to_nat wd)%nat by lia.
    reflexivity.
Qed.

(** The loop of [flushLines], entered with a leading skip of 0 by a dumper
    that is initialized and aligned: it formats every full line the buffer
    holds and leaves the rest. *)
Lemma flushLines_loop_full :
  forall (fuel : nat) (d : Dumper) (w : World),
    (List.length (b d) < fuel)%nat ->
    ready fm wd nc (d, w) ->
    0 <= Start d + off d -> (Start d + off d) mod wd = 0 ->
    exists k : nat,
      Z.of_nat k * wd <= len (b d) < (Z.of_nat k + 1) * wd
      /\ flushLines_loop fuel 0 (d, w)
         = (Ok tt,
            (set_off (off d + Z.of_nat k * wd)
               (set_b (skipn (k * Z.to_nat wd) (b d)) d),
             {| NoColor := nc;
                trace := trace w ++ fullLines nc fm wd k (Start d + off d) (b d) |})).
Proof.
  induction fuel as [| fuel IH]; intros d w Hfuel R N A; [lia |].
  destruct R as (F & W & C); cbn [fst snd] in *.
  cbn [flushLines_loop fst]. rewrite W, Z.add_0_l.
  destruct (Z.leb_spec wd (len (b d))) as [L | L].
  - rewrite flushLine_full by assumption.
    match goal with
    | |- context [flushLines_loop fuel 0 (?d1, ?w1)] =>
        destruct (IH d1 w1) as (k & B & E)
    end.
    + cbn [b set_off set_b]. rewrite length_skipn. unfold len in L. lia.
    + repeat split; assumption.
    + cbn [Start off set_off set_b]. lia.
    + cbn [Start off set_off set_b].
      replace (Start d + (off d + wd)) with (Start d + off d + 1 * wd) by lia.
      rewrite Z.mod_add by lia. exact A.
    + cbn [b Start off set_off set_b] in B, E.
      exists (S k). split.
      * unfold len in *. rewrite length_skipn in B. rewrite Nat2Z.inj_succ. lia.
      * rewrite E. unfold emit, set_off, set_b; cbn.
        rewrite skipn_skipn, <- app_assoc.
        replace (k * Z.to_nat wd + Z.to_nat wd)%nat
          with (Z.to_nat wd + k * Z.to_nat wd)%nat by lia.
        replace (off d + wd + Z.of_nat k * wd)
          with (off d + Z.pos (Pos.of_succ_nat k) * wd) by lia.
        replace (Start d + (off d + wd)) with (Start d + off d + wd) by lia.
        reflexivity.
  - exists O. split; [cbn [Z.of_nat]; pose proof (len_nonneg (b d)); lia |].
    cbn [Z.of_nat Nat.mul skipn fullLines]. rewrite app_nil_r.
    destruct d, w; unfold set_off, set_b; cbn in *. subst.
    repeat f_equal. lia.
Qed.

Lemma lineEvents_fullLines (k : nat) :
  forall (next : Z) (buf : list byte),
    lineEvents (fullLines nc fm wd k next buf) = fullLines nc fm wd k next buf.
Proof.
  induction k as [| k IH]; intros next buf; [reflexivity |].
  cbn [fullLines]. unfold lineEvents in *. cbn [filter lineEvent isLine].
  now rewrite IH.
Qed.

Lemma init_configured (d : Dumper) (w : World) :
  configured NativeEndian autoNoColor fm wd nc d ->
  exists d' w',
    init NativeEndian autoNoColor (d, w) = (Ok tt, (d', w'))
    /\ ready fm wd nc (d', w')
    /\ configured NativeEndian autoNoColor fm wd nc d'
    /\ b d' = b d /\ off d' = off d /\ Start d' = Start d /\ once d' = once d
    /\ lineEvents (trace w') = lineEvents (trace w).
Proof.
  intros (F & W & C). unfold init, initColor. do 2 eexists.
  split; [reflexivity |].
  unfold ready, configured, theFormatter, effWidth, colorDecision, theOutput in *;
    cbn [fst snd f LineWidth NoColor Output Color b off Start once trace].
  assert (W' : (if (if LineWidth d =? 0 then DefaultLineWidth else LineWidth d) =? 0
                then DefaultLineWidth
                else if LineWidth d =? 0 then DefaultLineWidth else LineWidth d) = wd).
  { rewrite W. destruct (Z.eqb_spec wd 0); [lia | reflexivity]. }
  repeat split; auto.
  all: try (destruct (f d); congruence).
  all: try (rewrite lineEvents_app; cbn; apply app_nil_r).
Qed.

Lemma onceDo_init_configured (d : Dumper) (w : World) :
  configured NativeEndian autoNoColor fm wd nc d ->
  (once d = true -> ready fm wd nc (d, w)) ->
  exists d' w',
    onceDo_init NativeEndian autoNoColor (d, w) = (Ok tt, (d', w'))
    /\ ready fm wd nc (d', w')
    /\ configured NativeEndian autoNoColor fm wd nc d'
    /\ once d' = true
    /\ b d' = b d /\ off d' = off d /\ Start d' = Start d
    /\ lineEvents (trace w') = lineEvents (trace w).
Proof.
  intros Cf R. unfold onceDo_init. destruct (once d) eqn:O.
  - exists d, w. split; [reflexivity |]. split; [apply R; reflexivity |].
    split; [exact Cf |]. repeat split; auto.
  - destruct (init_configured d w Cf)
      as (d1 & w1 & E & R1 & C1 & B1 & O1 & S1 & _ & L1).
    unfold bind. rewrite E. exists (set_once true d1), w1.
    split; [reflexivity |]. split; [exact R1 |]. split; [exact C1 |].
    repeat split; auto.
Qed.

(** [flushLines], from a configured dumper at an aligned offset: the full
    lines of the buffer, and with [all] the short line of what is left. *)
Lemma flushLines_configured (all : bool) (d : Dumper) (w : World) :
  configured NativeEndian autoNoColor fm wd nc d ->
  (once d = true -> ready fm wd nc (d, w)) ->
  0 <= Start d + off d -> (Start d + off d) mod wd = 0 ->
  exists (k : nat) d' w',
    Z.of_nat k * wd <= len (b d) < (Z.of_nat k + 1) * wd
    /\ flushLines NativeEndian autoNoColor all (d, w) = (Ok tt, (d', w'))
    /\ ready fm wd nc (d', w')
    /\ configured NativeEndian autoNoColor fm wd nc d'
    /\ once d' = true
    /\ (all = false ->
        b d' = skipn (k * Z.to_nat wd) (b d)
        /\ Start d' + off d' = Start d + off d + Z.of_nat k * wd)
    /\ lineEvents (trace w')
       = lineEvents (trace w)
         ++ fullLines nc fm wd k (Start d + off d) (b d)
         ++ (if all
             then lastLine nc fm (Start d + off d + Z.of_nat k * wd)
                    (skipn (k * Z.to_nat wd) (b d))
             else []).
Proof.
  intros Cf R N A.
  destruct (onceDo_init_configured d w Cf R)
    as (d1 & w1 & E1 & R1 & C1 & O1 & B1 & F1 & S1 & L1).
  unfold flushLines, bind. rewrite E1.
  pose proof R1 as (Rf & Rw & Rc); cbn [fst snd] in Rf, Rw, Rc.
  rewrite Rw. destruct (Z.eqb_spec wd 0); [lia |].
  assert (N1 : 0 <= Start d1 + off d1) by (rewrite S1, F1; exact N).
  assert (A1 : (Start d1 + off d1) mod wd = 0) by (rewrite S1, F1; exact A).
  destruct (aligned_quot_rem _ N1 A1) as [_ Rem]. rewrite Rem.
  destruct (flushLines_loop_full (S (List.length (b d1))) d1 w1 (Nat.lt_succ_diag_r _)
              R1 N1 A1) as (k & Bk & E2).
  rewrite E2. rewrite B1, S1, F1 in *.
  set (d2 := set_off (off d + Z.of_nat k * wd) (set_b (skipn (k * Z.to_nat wd) (b d)) d1)).
  set (w2 := {| NoColor := nc;
                trace := trace w1 ++ fullLines nc fm wd k (Start d + off d) (b d) |}).
  assert (R2 : ready fm wd nc (d2, w2)) by (repeat split; assumption).
  assert (L2 : lineEvents (trace w2)
               = lineEvents (trace w) ++ fullLines nc fm wd k (Start d + off d) (b d)).
  { subst w2. cbn [trace]. now rewrite lineEvents_app, lineEvents_fullLines, L1. }
  destruct all; cbn [andb].
  - change (b d2) with (skipn (k * Z.to_nat wd) (b d)).
    destruct (Z.ltb_spec 0 (len (skipn (k * Z.to_nat wd) (b d)))) as [P | P].
    + assert (E3 : Start d2 + off d2 = Start d + off d + Z.of_nat k * wd).
      { change (Start d2 + off d2) with (Start d1 + (off d + Z.of_nat k * wd)).
        rewrite S1. lia. }
      assert (N2 : 0 <= Start d2 + off d2) by (rewrite E3; lia).
      assert (A2 : (Start d2 + off d2) mod wd = 0)
        by (rewrite E3, Z.mod_add by lia; exact A).
      rewrite (flushLine_rest d2 w2 Rf Rw eq_refl N2 A2 P).
      exists k. do 2 eexists. split; [exact Bk |]. split; [reflexivity |].
      split; [repeat split; assumption |].
      split; [exact C1 |]. split; [exact O1 |].
      split; [discriminate |].
      unfold emit; cbn [trace]. rewrite lineEvents_app, L2, <- app_assoc, E3.
      change (b d2) with (skipn (k * Z.to_nat wd) (b d)).
      destruct (skipn (k * Z.to_nat wd) (b d)) eqn:Sk;
        [unfold len in P; simpl in P; lia | reflexivity].
    + exists k, d2, w2. split; [exact Bk |]. split; [reflexivity |].
      split; [exact R2 |]. split; [exact C1 |]. split; [exact O1 |].
      split; [discriminate |].
      rewrite L2.
      destruct (skipn (k * Z.to_nat wd) (b d));
        [cbn [lastLine]; now rewrite app_nil_r | unfold len in P; simpl in P; lia].
  - exists k, d2, w2. split; [exact Bk |]. split; [reflexivity |].
    split; [exact R2 |]. split; [exact C1 |]. split; [exact O1 |].
    split.
    + intros _. split; [reflexivity |].
      change (Start d2 + off d2) with (Start d1 + (off d + Z.of_nat k * wd)).
      rewrite S1. lia.
    + rewrite L2, app_nil_r. reflexivity.
Qed.

Variable next0 : Z.
Variable l0 : list Event.
Hypothesis next0_nonneg : 0 <= next0.
Hypothesis next0_aligned : next0 mod wd = 0.

Lemma skipn_app_short {A} (n : nat) (l1 l2 : list A) :
  (n <= List.length l1)%nat -> skipn n (l1 ++ l2) = skipn n l1 ++ l2.
Proof.
  intros H. rewrite skipn_app. replace (n - List.length l1)%nat with O by lia.
  reflexivity.
Qed.

(** A [Write] takes a dump from the data so far to the data with the chunk
    appended. *)
Lemma Write_chunked (p data : list byte) (st : State) :
  chunked NativeEndian autoNoColor fm wd nc next0 l0 data st ->
  exists st',
    Write NativeEndian autoNoColor p st = (Ok (len p), st')
    /\ chunked NativeEndian autoNoColor fm wd nc next0 l0 (data ++ p) st'.
Proof.
  destruct st as [d w]. intros (Cf & R & k1 & B1 & Bd & Sd & Ld); cbn [fst snd] in *.
  assert (K1 : (k1 * Z.to_nat wd <= List.length data)%nat).
  { unfold len in B1. nia. }
  unfold Write, bind at 1.
  destruct (flushLines_configured false (set_b (b d ++ p) d) w)
    as (k2 & d' & w' & B2 & E & R' & C' & O' & Hb & L').
  - exact Cf.
  - exact R.
  - cbn [Start off set_b]. rewrite Sd. nia.
  - cbn [Start off set_b]. rewrite Sd, Z.mod_add by lia. exact next0_aligned.
  - destruct (Hb eq_refl) as [Hb1 Hb2]. clear Hb.
    cbn [b Start off set_b] in *. rewrite Bd in *.
    rewrite <- skipn_app_short in * by exact K1.
    unfold bind, ret. rewrite E. eexists. split; [reflexivity |].
    split; [exact C' |]. split; [intros _; exact R' |].
    exists (k1 + k2)%nat. cbn [fst snd].
    assert (LS : len (skipn (k1 * Z.to_nat wd) (data ++ p))
                 = len data + len p - Z.of_nat k1 * wd).
    { unfold len. rewrite length_skipn, length_app. nia. }
    rewrite LS in B2.
    split; [rewrite len_app, Nat2Z.inj_add; lia |].
    split; [rewrite Hb1, skipn_skipn; f_equal; lia |].
    split; [rewrite Hb2, Sd, Nat2Z.inj_add; lia |].
    rewrite L', Ld, app_nil_r, <- app_assoc. f_equal.
    rewrite fullLines_plus, fullLines_app, Sd by lia. reflexivity.
Qed.

Lemma Writes_chunked (chunks : list (list byte)) :
  forall (data : list byte) (st : State),
    chunked NativeEndian autoNoColor fm wd nc next0 l0 data st ->
    exists st',
      Writes NativeEndian autoNoColor chunks st = (Ok tt, st')
      /\ chunked NativeEndian autoNoColor fm wd nc next0 l0
           (data ++ List.concat chunks) st'.
Proof.
  induction chunks as [| p chunks IH]; intros data st H.
  - exists st. split; [reflexivity |]. cbn [List.concat]. now rewrite app_nil_r.
  - destruct (Write_chunked p data st H) as (st1 & E1 & H1).
    destruct (IH _ _ H1) as (st2 & E2 & H2).
    exists st2. cbn [Writes List.concat]. unfold bind. rewrite E1, E2.
    split; [reflexivity |]. now rewrite app_assoc.
Qed.

(** The whole session: it returns normally, and its lines are the full
    lines of the data and the short line of what is left, whatever the
    chunks. *)
Lemma session_chunked (chunks : list (list byte)) (st : State) :
  chunked NativeEndian autoNoColor fm wd nc next0 l0 [] st ->
  exists st',
    session NativeEndian autoNoColor chunks st = (Ok tt, st')
    /\ lineEvents (trace (snd st'))
       = l0
         ++ fullLines nc fm wd (Z.to_nat (len (List.concat chunks) / wd)) next0
              (List.concat chunks)
         ++ lastLine nc fm
              (next0 + Z.of_nat (Z.to_nat (len (List.concat chunks) / wd)) * wd)
              (skipn (Z.to_nat (len (List.concat chunks) / wd) * Z.to_nat wd)
                 (List.concat chunks)).
Proof.
  intros H.
  destruct (Writes_chunked chunks [] st H) as ([d w] & E1 & H1).
  cbn [app] in H1. set (data := List.concat chunks) in *.
  destruct H1 as (Cf & R & k & Bk & Bd & Sd & Ld); cbn [fst snd] in *.
  assert (K : k = Z.to_nat (len data / wd)).
  { assert (len data / wd = Z.of_nat k); [| lia].
    symmetry. apply (Z.div_unique _ _ _ (len data - Z.of_nat k * wd)); lia. }
  destruct (init_configured d w Cf) as (d1 & w1 & E2 & R1 & C1 & B1 & F1 & S1 & _ & L1).
  destruct (flushLines_configured true d1 w1 C1 (fun _ => R1))
    as (k2 & d' & w' & B2 & E3 & _ & _ & _ & _ & L').
  - rewrite S1, F1, Sd. nia.
  - rewrite S1, F1, Sd, Z.mod_add by lia. exact next0_aligned.
  - rewrite B1, S1, F1, Bd, Sd in *.
    assert (LS : len (skipn (k * Z.to_nat wd) data) = len data - Z.of_nat k * wd).
    { unfold len in *. rewrite length_skipn. nia. }
    assert (k2 = O) by nia. subst k2.
    exists (d', w'). unfold session, Flush, bind. rewrite E1, E2, E3.
    split; [reflexivity |]. cbn [snd].
    rewrite L', L1, Ld, <- K. cbn [fullLines app Z.of_nat Nat.mul skipn].
    rewrite <- app_assoc. do 2 f_equal. f_equal. lia.
Qed.

End Chunking.



(** * More on the dumper *)

(** ** Runs that return normally *)

Lemma bind_ok {A B} (m : M A) (k : A -> M B) (st st'' : State) (r : B) :
  bind m k st = (Ok r, st'') ->
  exists a st', m st = (Ok a, st') /\ k a st' = (Ok r, st'').
Proof.
  unfold bind. destruct (m st) as [[a | e | p |] st']; intros H;
    try discriminate H. eauto.
Qed.

Lemma rendered_app (t1 t2 : list Event) :
  rendered (t1 ++ t2) = (rendered t1 ++ rendered t2)%string.
Proof.
  induction t1 as [| [? ? | ? ? ? ? text] t1 IH]; simpl; auto.
  rewrite IH. clear. induction text; simpl; congruence.
Qed.

Lemma payloads_app (t1 t2 : list Event) :
  payloads (t1 ++ t2) = payloads t1 ++ payloads t2.
Proof. unfold payloads. now rewrite lines_app, map_app. Qed.

Section Runs.

Variable NativeEndian : binary.ByteOrder.
Variable autoNoColor : Writer -> bool.

(** What [init] does to a state. *)
Lemma init_spec (d : Dumper) (w : World) :
  exists d' w',
    init NativeEndian autoNoColor (d, w) = (Ok tt, (d', w'))
    /\ b d' = b d /\ off d' = off d /\ Start d' = Start d /\ once d' = once d
    /\ LineWidth d' = effWidth d /\ LineWidth d' <> 0
    /\ lines (trace w') = lines (trace w)
    /\ rendered (trace w') = rendered (trace w).
Proof.
  unfold init, initColor, effWidth, DefaultLineWidth. do 2 eexists.
  split; [reflexivity |].
  cbn [b off Start once LineWidth trace].
  rewrite lines_app, rendered_app. cbn. rewrite app_nil_r.
  repeat split; auto.
  - destruct (Z.eqb_spec (LineWidth d) 0); lia.
  - clear. induction (rendered (trace w)); simpl; congruence.
Qed.

Lemma onceDo_init_spec (d : Dumper) (w : World) :
  exists d' w',
    onceDo_init NativeEndian autoNoColor (d, w) = (Ok tt, (d', w'))
    /\ b d' = b d /\ off d' = off d /\ Start d' = Start d /\ once d' = true
    /\ LineWidth d' = (if once d then LineWidth d else effWidth d)
    /\ lines (trace w') = lines (trace w)
    /\ rendered (trace w') = rendered (trace w).
Proof.
  unfold onceDo_init. destruct (once d) eqn:O.
  - exists d, w. repeat split; auto.
  - destruct (init_spec d w) as (d1 & w1 & E & B1 & F1 & S1 & _ & W1 & _ & L1 & R1).
    unfold bind. rewrite E. exists (set_once true d1), w1.
    repeat split; auto.
Qed.

(** The loop of [flushLines] on a run that returns normally: what every
    line keeps is kept, and the loop is left because the buffer no longer
    holds a line. *)
Lemma flushLines_loop_ok (P : State -> Prop) :
  (forall st st1, P st -> flushLine false st = (Ok tt, st1) -> P st1) ->
  forall (fuel : nat) (skip : Z) (st st' : State),
    P st ->
    flushLines_loop fuel skip st = (Ok tt, st') ->
    P st' /\ skip + len (b (fst st')) < LineWidth (fst st').
Proof.
  intros Step. induction fuel as [| fuel IH]; intros skip st st' HP E;
    cbn [flushLines_loop] in E;
    destruct (Z.leb_spec (LineWidth (fst st)) (skip + len (b (fst st)))) as [C | C];
    try discriminate E.
  - injection E as <-. auto.
  - destruct (flushLine false st) as [[[] | e | p |] st1] eqn:F; try discriminate E.
    apply (IH skip st1 st'); eauto.
  - injection E as <-. auto.
Qed.

(** ** No byte is lost, repeated or moved *)

Lemma flushLine_payload (all : bool) (st st1 : State) :
  flushLine all st = (Ok tt, st1) ->
  List.concat (payloads (trace (snd st1))) ++ b (fst st1)
  = List.concat (payloads (trace (snd st))) ++ b (fst st)
  /\ (all = true -> b (fst st1) = []).
Proof.
  destruct st as [d w], st1 as [d1 w1]. intros E.
  apply flushLine_spec in E.
  destruct E as (_ & [(N & _) | (fm & buf & text & H)]); [congruence |].
  cbv zeta in H. destruct H as (_ & _ & _ & L & B & _ & ->).
  cbn [fst snd]. unfold emit; cbn [trace].
  rewrite payloads_app, concat_app, B, <- app_assoc. cbn.
  rewrite app_nil_r. split; [reflexivity |].
  intros ->. rewrite B in L. rewrite len_app in L.
  destruct (b d1); [reflexivity | unfold len in L; simpl in L; lia].
Qed.

Lemma flushLines_payload (all : bool) (st st1 : State) :
  flushLines NativeEndian autoNoColor all st = (Ok tt, st1) ->
  List.concat (payloads (trace (snd st1))) ++ b (fst st1)
  = List.concat (payloads (trace (snd st))) ++ b (fst st)
  /\ (all = true -> b (fst st1) = []).
Proof.
  destruct st as [d w]. unfold flushLines. intros E.
  apply bind_ok in E. destruct E as ([] & [d0 w0] & E0 & E).
  destruct (onceDo_init_spec d w) as (d0' & w0' & E0' & B0 & _ & _ & _ & _ & L0 & _).
  rewrite E0' in E0. injection E0 as <- <-.
  assert (P0 : List.concat (payloads (trace w0')) ++ b d0'
               = List.concat (payloads (trace w)) ++ b d).
  { unfold payloads. now rewrite L0, B0. }
  destruct (LineWidth d0' =? 0); [discriminate E |].
  apply bind_ok in E. destruct E as ([] & [d2 w2] & E2 & E).
  apply (flushLines_loop_ok
           (fun st => List.concat (payloads (trace (snd st))) ++ b (fst st)
                      = List.concat (payloads (trace w)) ++ b d)) in E2.
  - destruct E2 as [P2 _]. cbn [fst snd] in P2 |- *.
    destruct all; cbn [andb] in E.
    + destruct (Z.ltb_spec 0 (len (b d2))) as [Q | Q].
      * apply flushLine_payload in E. destruct E as [E1 E2].
        cbn [fst snd] in E1. split; [congruence | auto].
      * injection E as <-. cbn [fst snd]. split; [exact P2 |].
        intros _. destruct (b d2); [reflexivity | unfold len in Q; simpl in Q; lia].
    + injection E as <-. cbn [fst snd]. split; [exact P2 | discriminate].
  - intros st st' HP F. apply flushLine_payload in F. destruct F as [F _]. congruence.
  - exact P0.
Qed.

Lemma Write_payload (p : list byte) (st st1 : State) (n : Z) :
  Write NativeEndian autoNoColor p st = (Ok n, st1) ->
  List.concat (payloads (trace (snd st1))) ++ b (fst st1)
  = List.concat (payloads (trace (snd st))) ++ b (fst st) ++ p.
Proof.
  destruct st as [d w]. unfold Write. intros E.
  apply bind_ok in E. destruct E as ([] & st0 & E0 & E). injection E0 as <-.
  apply bind_ok in E. destruct E as ([] & st2 & E2 & E). injection E as _ <-.
  apply flushLines_payload in E2. destruct E2 as [E2 _]. exact E2.
Qed.

Lemma Writes_payload (chunks : list (list byte)) :
  forall st st1 : State,
    Writes NativeEndian autoNoColor chunks st = (Ok tt, st1) ->
    List.concat (payloads (trace (snd st1))) ++ b (fst st1)
    = List.concat (payloads (trace (snd st))) ++ b (fst st) ++ List.concat chunks.
Proof.
  induction chunks as [| p chunks IH]; intros st st1 E.
  - injection E as <-. cbn [List.concat]. now rewrite app_nil_r.
  - cbn [Writes] in E. apply bind_ok in E. destruct E as (n & st0 & E0 & E).
    apply Write_payload in E0. apply IH in E. rewrite E, app_assoc, E0.
    cbn [List.concat]. now rewrite <- !app_assoc.
Qed.

Lemma Flush_payload (st st1 : State) :
  Flush NativeEndian autoNoColor st = (Ok tt, st1) ->
  List.concat (payloads (trace (snd st1)))
  = List.concat (payloads (trace (snd st))) ++ b (fst st)
  /\ b (fst st1) = [].
Proof.
  destruct st as [d w]. unfold Flush. intros E.
  apply bind_ok in E. destruct E as ([] & [d0 w0] & E0 & E).
  destruct (init_spec d w) as (d0' & w0' & E0' & B0 & _ & _ & _ & _ & _ & L0 & _).
  rewrite E0' in E0. injection E0 as <- <-.
  apply flushLines_payload in E. destruct E as [E1 E2].
  specialize (E2 eq_refl). rewrite E2, app_nil_r in E1.
  split; [| exact E2]. rewrite E1. cbn [fst snd]. unfold payloads.
  now rewrite L0, B0.
Qed.

End Runs.

(** X2.  A session that returns normally has formatted every byte it was
    given, once and in order: the payloads of its lines, one after the
    other, are the bytes that were in the buffer followed by the chunks
    written, and the buffer is empty. *)
Theorem session_payloads :
  forall (NativeEndian : binary.ByteOrder) (autoNoColor : Writer -> bool)
         (chunks : list (list byte)) (st st' : State),
    session NativeEndian autoNoColor chunks st = (Ok tt, st') ->
    List.concat (payloads (trace (snd st')))
    = List.concat (payloads (trace (snd st))) ++ b (fst st) ++ List.concat chunks
    /\ b (fst st') = [].
Proof.
  intros NativeEndian autoNoColor chunks st st' E. unfold session in E.
  apply bind_ok in E. destruct E as ([] & st0 & E0 & E).
  apply Writes_payload in E0. apply Flush_payload in E. destruct E as [E1 E2].
  split; [| exact E2]. now rewrite E1, E0.
Qed.

Lemma session_payloads_witness :
  List.concat (payloads (trace (snd (snd
    (session binary.LittleEndian (fun _ => true)
       [list_byte_of_string "Hello, "; list_byte_of_string "World!"]
       (New [Opt.Start 4100; Opt.LineWidth 8], world0))))))
  = List.concat (payloads (trace world0)) ++ b (New [Opt.Start 4100; Opt.LineWidth 8])
    ++ List.concat [list_byte_of_string "Hello, "; list_byte_of_string "World!"]
  /\ b (fst (snd
       (session binary.LittleEndian (fun _ => true)
          [list_byte_of_string "Hello, "; list_byte_of_string "World!"]
          (New [Opt.Start 4100; Opt.LineWidth 8], world0)))) = [].
Proof.
  apply (session_payloads binary.LittleEndian (fun _ => true)
           [list_byte_of_string "Hello, "; list_byte_of_string "World!"]
           (New [Opt.Start 4100; Opt.LineWidth 8], world0)
           (snd (session binary.LittleEndian (fun _ => true)
                   [list_byte_of_string "Hello, "; list_byte_of_string "World!"]
                   (New [Opt.Start 4100; Opt.LineWidth 8], world0)))).
  vm_compute. reflexivity.
Defined.

(** ** A second [Flush] *)

Section Flushing.

Variable NativeEndian : binary.ByteOrder.
Variable autoNoColor : Writer -> bool.

Lemma flushLine_config (all : bool) (st st1 : State) (r : outcome unit) :
  flushLine all st = (r, st1) ->
  LineWidth (fst st1) = LineWidth (fst st) /\ once (fst st1) = once (fst st)
  /\ Start (fst st1) = Start (fst st).
Proof.
  destruct st as [d w], st1 as [d1 w1]. intros E.
  apply flushLine_spec in E. destruct E as ((S & L & O & _) & _). auto.
Qed.

(** After a [Flush] that returned normally the buffer is empty, the line
    width is positive and the latch is shut. *)
Lemma Flush_ok_state (st st1 : State) :
  Flush NativeEndian autoNoColor st = (Ok tt, st1) ->
  b (fst st1) = [] /\ 0 < LineWidth (fst st1) /\ once (fst st1) = true.
Proof.
  intros E. pose proof (Flush_payload _ _ _ _ E) as [_ B]. split; [exact B |].
  destruct st as [d w]. unfold Flush in E.
  apply bind_ok in E. destruct E as ([] & [d0 w0] & _ & E).
  unfold flushLines in E.
  apply bind_ok in E. destruct E as ([] & [d1 w1] & E1 & E).
  destruct (onceDo_init_spec NativeEndian autoNoColor d0 w0)
    as (d1' & w1' & E1' & _ & _ & _ & O1 & _).
  rewrite E1' in E1. injection E1 as <- <-.
  destruct (Z.eqb_spec (LineWidth d1') 0) as [W0 | W0]; [discriminate E |].
  apply bind_ok in E. destruct E as ([] & [d2 w2] & E2 & E).
  apply (flushLines_loop_ok
           (fun st => LineWidth (fst st) = LineWidth d1' /\ once (fst st) = true)) in E2.
  - destruct E2 as [[W2 O2] X2]. cbn [fst snd] in *.
    assert (Wpos : 0 < LineWidth d1').
    { pose proof (Z.rem_bound_abs (Start d1' + off d1') (LineWidth d1') W0).
      pose proof (len_nonneg (b d2)). lia. }
    destruct (true && (0 <? len (b d2))).
    + apply flushLine_config in E. cbn [fst] in E. destruct E as (L & O & _).
      split; congruence.
    + injection E as <-. cbn [fst]. split; congruence.
  - intros s s1 [HW HO] F. apply flushLine_config in F.
    destruct F as (L & O & _). split; congruence.
  - cbn [fst]. auto.
Qed.

End Flushing.

(** X5.  A second [Flush], after one that returned normally, returns normally
    and formats no line: the lines and the text of the run are what they
    were. *)
Theorem Flush_twice :
  forall (NativeEndian : binary.ByteOrder) (autoNoColor : Writer -> bool)
         (st st1 : State),
    Flush NativeEndian autoNoColor st = (Ok tt, st1) ->
    exists st2,
      Flush NativeEndian autoNoColor st1 = (Ok tt, st2)
      /\ lines (trace (snd st2)) = lines (trace (snd st1))
      /\ rendered (trace (snd st2)) = rendered (trace (snd st1))
      /\ b (fst st2) = [].
Proof.
  intros NativeEndian autoNoColor st [d1 w1] E.
  apply Flush_ok_state in E. cbn [fst] in E. destruct E as (B1 & W1 & O1).
  destruct (init_spec NativeEndian autoNoColor d1 w1)
    as (d2 & w2 & E2 & B2 & F2 & S2 & O2 & W2 & N2 & L2 & R2).
  assert (W2' : LineWidth d2 = LineWidth d1).
  { rewrite W2. unfold effWidth. destruct (Z.eqb_spec (LineWidth d1) 0); [lia | reflexivity]. }
  exists (d2, w2). cbn [fst snd]. split; [| rewrite B2; auto].
  unfold Flush, bind at 1. rewrite E2.
  unfold flushLines, bind, onceDo_init. rewrite O2, O1.
  destruct (Z.eqb_spec (LineWidth d2) 0); [lia |].
  cbn [flushLines_loop fst]. rewrite B2, B1.
  change (len (@nil byte)) with 0.
  pose proof (Z.rem_bound_abs (Start d2 + off d2) (LineWidth d2) ltac:(lia)) as RB.
  destruct (Z.leb_spec (LineWidth d2) (Z.rem (Start d2 + off d2) (LineWidth d2) + 0));
    [lia |].
  rewrite B2, B1. reflexivity.
Qed.

Lemma Flush_twice_witness :
  exists st2,
    Flush binary.LittleEndian (fun _ => true)
      (snd (Flush binary.LittleEndian (fun _ => true)
              (set_b [x41; x42] (New []), world0)))
    = (Ok tt, st2)
    /\ lines (trace (snd st2))
       = lines (trace (snd (snd (Flush binary.LittleEndian (fun _ => true)
                                   (set_b [x41; x42] (New []), world0)))))
    /\ rendered (trace (snd st2))
       = rendered (trace (snd (snd (Flush binary.LittleEndian (fun _ => true)
                                      (set_b [x41; x42] (New []), world0)))))
    /\ b (fst st2) = [].
Proof.
  apply (Flush_twice binary.LittleEndian (fun _ => true)
           (set_b [x41; x42] (New []), world0)).
  vm_compute. reflexivity.
Defined.

(** ** A negative line width *)



(** ** Every line fits *)

Lemma flushLines_loop_all (P : State -> Prop) :
  (forall st, P st -> P (snd (flushLine false st))) ->
  forall (fuel : nat) (skip : Z) (st : State),
    P st -> P (snd (flushLines_loop fuel skip st)).
Proof.
  intros Step. induction fuel as [| fuel IH]; intros skip st HP;
    cbn [flushLines_loop];
    destruct (LineWidth (fst st) <=? skip + len (b (fst st))); auto.
  specialize (Step st HP).
  destruct (flushLine false st) as [[[] | e | p |] st1]; auto.
Qed.

Section Fitting.

Variable NativeEndian : binary.ByteOrder.
Variable autoNoColor : Writer -> bool.
Variable width : Z.
Hypothesis width_pos : 0 < width.






End Fitting.



(** * What [Write] leaves to [Flush] *)

Section FullLines.

Variable NativeEndian : binary.ByteOrder.
Variable autoNoColor : Writer -> bool.

Lemma flushLine_full_line (width : Z) (l0 : list (Z * Z * list byte)) (st : State) :
  (LineWidth (fst st) = width
   /\ exists new, lines (trace (snd st)) = l0 ++ new /\ Forall (full width) new) ->
  LineWidth (fst (snd (flushLine false st))) = width
  /\ exists new,
       lines (trace (snd (snd (flushLine false st)))) = l0 ++ new
       /\ Forall (full width) new.
Proof.
  destruct st as [d w]. intros (W & new & L & F); cbn [fst snd] in *.
  destruct (flushLine false (d, w)) as [r [d1 w1]] eqn:E.
  apply flushLine_spec in E.
  destruct E as ((_ & LW & _) & [(_ & _ & ->) | (fm & buf & text & H)]);
    cbn [fst snd].
  - split; [congruence | eauto].
  - cbv zeta in H. destruct H as (_ & _ & _ & LB & _ & _ & ->).
    split; [congruence |].
    exists (new ++ [(Z.quot (Start d + off d) (LineWidth d) * LineWidth d,
                     Z.rem (Start d + off d) (LineWidth d), buf)]).
    unfold emit; cbn [trace]. rewrite lines_app, L, <- app_assoc.
    split; [reflexivity |].
    apply Forall_app. split; [exact F |].
    constructor; [| constructor]. cbn. lia.
Qed.

Lemma Write_lines (p : list byte) (d : Dumper) (w : World) :
  exists new,
    lines (trace (snd (snd (Write NativeEndian autoNoColor p (d, w)))))
    = lines (trace w) ++ new
    /\ Forall (full (if once d then LineWidth d else effWidth d)) new.
Proof.
  set (width := if once d then LineWidth d else effWidth d).
  assert (SW : snd (Write NativeEndian autoNoColor p (d, w))
              = snd (flushLines NativeEndian autoNoColor false (set_b (b d ++ p) d, w))).
  { unfold Write, bind at 1. unfold bind, ret.
    destruct (flushLines _ _ _ _) as [[[] | e | q |] st]; reflexivity. }
  rewrite SW. clear SW. unfold flushLines, bind at 1.
  destruct (onceDo_init_spec NativeEndian autoNoColor (set_b (b d ++ p) d) w)
    as (d1 & w1 & -> & _ & _ & _ & _ & W1 & L1 & _).
  change (once (set_b (b d ++ p) d)) with (once d) in W1.
  change (LineWidth (set_b (b d ++ p) d)) with (LineWidth d) in W1.
  change (effWidth (set_b (b d ++ p) d)) with (effWidth d) in W1.
  fold width in W1.
  destruct (LineWidth d1 =? 0).
  { exists []. cbn [snd]. rewrite app_nil_r. split; [exact L1 | constructor]. }
  pose proof (flushLines_loop_all
                (fun st => LineWidth (fst st) = width
                           /\ exists new, lines (trace (snd st)) = lines (trace w) ++ new
                                          /\ Forall (full width) new)
                (flushLine_full_line width (lines (trace w)))
                (S (List.length (b d1)))
                (Z.rem (Start d1 + off d1) (LineWidth d1)) (d1, w1)) as H.
  destruct H as (_ & new & L & F).
  { cbn [fst snd]. split; [exact W1 |]. exists [].
    rewrite app_nil_r. split; [exact L1 | constructor]. }
  exists new. split; [| exact F]. rewrite <- L.
  unfold bind. cbn [andb].
  destruct (flushLines_loop _ _ (d1, w1)) as [[[] | e | q |] [d2 w2]]; reflexivity.
Qed.

End FullLines.

(** X3.  [Write] formats full lines only.  Whatever the dumper, the bytes and
    the outcome, every line a [Write] adds ends at the end of the line: its
    leading skip and its payload make up the line width.  A line that stops
    short is left to [Flush]. *)
Theorem Write_formats_full_lines :
  forall (NativeEndian : binary.ByteOrder) (autoNoColor : Writer -> bool)
         (p : list byte) (d : Dumper) (w : World),
  exists new,
    lines (trace (snd (snd (Write NativeEndian autoNoColor p (d, w)))))
    = lines (trace w) ++ new
    /\ Forall (full (if once d then LineWidth d else effWidth d)) new.
Proof. exact Write_lines. Qed.

(** * The color mode and the environment *)

Lemma bind_eq {A B} (m1 m2 : M A) (k1 k2 : A -> M B) (st1 st2 : State) :
  m1 st1 = m2 st2 ->
  (forall (a : A) (st : State), m1 st1 = (Ok a, st) -> k1 a st = k2 a st) ->
  bind m1 k1 st1 = bind m2 k2 st2.
Proof.
  intros Hm Hk. unfold bind. rewrite <- Hm.
  destruct (m1 st1) as [[a | e | p |] st]; auto.
Qed.

Lemma flushLine_Color (all : bool) (st : State) :
  Color (fst (snd (flushLine all st))) = Color (fst st).
Proof.
  destruct st as [d w]. unfold flushLine.
  destruct (LineWidth d =? 0); [reflexivity |].
  destruct (_ <? 0); [reflexivity |].
  destruct (ReadFull _ (b d)) as [[buf | e | p |] rest]; try reflexivity.
  cbn [f set_b].
  destruct (f d) as [fm |]; [| reflexivity].
  destruct (FormatLine fm _ _ buf w) as [[[] | e | p |] w']; reflexivity.
Qed.

Lemma flushLines_loop_Color (skip : Z) :
  forall (fuel : nat) (st : State),
    Color (fst (snd (flushLines_loop fuel skip st))) = Color (fst st).
Proof.
  induction fuel as [| fuel IH]; intros st; cbn [flushLines_loop];
    destruct (LineWidth (fst st) <=? skip + len (b (fst st))); try reflexivity.
  pose proof (flushLine_Color false st) as F.
  destruct (flushLine false st) as [[[] | e | p |] st1]; cbn [snd] in F |- *;
    try exact F.
  now rewrite IH.
Qed.

Section Environment.

Variable NativeEndian : binary.ByteOrder.
Variables env1 env2 : Writer -> bool.

Lemma init_fixed_color (d : Dumper) (w1 w2 : World) :
  Color d <> ColorAuto -> trace w1 = trace w2 ->
  init NativeEndian env1 (d, w1) = init NativeEndian env2 (d, w2).
Proof.
  intros C T. unfold init, initColor. rewrite T.
  destruct (Color d); [congruence | reflexivity | reflexivity].
Qed.

Lemma flushLines_fixed_color (all : bool) (d : Dumper) (w1 w2 : World) :
  Color d <> ColorAuto -> trace w1 = trace w2 ->
  (once d = true -> w1 = w2) ->
  flushLines NativeEndian env1 all (d, w1) = flushLines NativeEndian env2 all (d, w2).
Proof.
  intros C T O. unfold flushLines. apply bind_eq; [| reflexivity].
  unfold onceDo_init. destruct (once d).
  - now rewrite (O eq_refl).
  - apply bind_eq; [| reflexivity]. now apply init_fixed_color.
Qed.

Lemma Write_fixed_color (p : list byte) (d : Dumper) (w1 w2 : World) :
  Color d <> ColorAuto -> trace w1 = trace w2 ->
  (once d = true -> w1 = w2) ->
  Write NativeEndian env1 p (d, w1) = Write NativeEndian env2 p (d, w2).
Proof.
  intros C T O. unfold Write.
  unfold bind at 1. symmetry. unfold bind at 1. symmetry.
  apply bind_eq; [| reflexivity].
  now apply flushLines_fixed_color.
Qed.

Lemma init_Color (env : Writer -> bool) (st : State) :
  Color (fst (snd (init NativeEndian env st))) = Color (fst st).
Proof. destruct st as [d w]. reflexivity. Qed.

Lemma flushLines_Color (env : Writer -> bool) (all : bool) (st : State) :
  Color (fst (snd (flushLines NativeEndian env all st))) = Color (fst st).
Proof.
  destruct st as [d w]. unfold flushLines, bind at 1.
  assert (O : exists d1 w1, onceDo_init NativeEndian env (d, w) = (Ok tt, (d1, w1))
                            /\ Color d1 = Color d).
  { unfold onceDo_init. destruct (once d); [eauto |].
    unfold bind, init. do 2 eexists. split; reflexivity. }
  destruct O as (d1 & w1 & -> & C1).
  change (Color (fst (d, w))) with (Color d). rewrite <- C1.
  destruct (LineWidth d1 =? 0); [reflexivity |].
  unfold bind.
  pose proof (flushLines_loop_Color (Z.rem (Start d1 + off d1) (LineWidth d1))
                (S (List.length (b d1))) (d1, w1)) as L.
  destruct (flushLines_loop _ _ (d1, w1)) as [[[] | e | p |] [d2 w2]];
    cbn [fst snd] in L |- *; try exact L.
  destruct (all && (0 <? len (b d2))); [| exact L].
  rewrite <- L. apply (flushLine_Color true (d2, w2)).
Qed.

Lemma Write_Color (env : Writer -> bool) (p : list byte) (st : State) :
  Color (fst (snd (Write NativeEndian env p st))) = Color (fst st).
Proof.
  destruct st as [d w]. unfold Write, bind at 1.
  pose proof (flushLines_Color env false (set_b (b d ++ p) d, w)) as F.
  unfold bind. destruct (flushLines _ _ _ _) as [[[] | e | q |] st1];
    cbn [fst snd] in F |- *; exact F.
Qed.

Lemma Flush_fixed_color (d : Dumper) (w1 w2 : World) :
  Color d <> ColorAuto -> trace w1 = trace w2 ->
  Flush NativeEndian env1 (d, w1) = Flush NativeEndian env2 (d, w2).
Proof.
  intros C T. unfold Flush. apply bind_eq; [now apply init_fixed_color |].
  intros [] [d1 w1'] E. apply flushLines_fixed_color; auto.
  pose proof (init_Color env1 (d, w1)) as I. rewrite E in I. cbn [fst snd] in I.
  congruence.
Qed.

Lemma session_same_state (chunks : list (list byte)) :
  forall st : State,
    Color (fst st) <> ColorAuto ->
    session NativeEndian env1 chunks st = session NativeEndian env2 chunks st.
Proof.
  unfold session. induction chunks as [| p chunks IH]; intros [d w] C;
    cbn [fst] in C.
  - cbn [Writes]. unfold bind, ret. now apply Flush_fixed_color.
  - cbn [Writes].
    assert (W : Write NativeEndian env1 p (d, w) = Write NativeEndian env2 p (d, w))
      by now apply Write_fixed_color.
    pose proof (Write_Color env1 p (d, w)) as WC.
    specialize (IH (snd (Write NativeEndian env1 p (d, w)))).
    unfold bind in IH |- *. rewrite <- W.
    destruct (Write NativeEndian env1 p (d, w)) as [[n | e | q |] st1];
      try reflexivity.
    apply IH. cbn [fst snd] in WC |- *. congruence.
Qed.

Lemma session_fixed_color (chunks : list (list byte)) (d : Dumper) (w1 w2 : World) :
  Color d <> ColorAuto -> once d = false -> trace w1 = trace w2 ->
  session NativeEndian env1 chunks (d, w1) = session NativeEndian env2 chunks (d, w2).
Proof.
  intros C O T. destruct chunks as [| p chunks].
  - unfold session. cbn [Writes]. unfold bind, ret. now apply Flush_fixed_color.
  - assert (W : Write NativeEndian env1 p (d, w1) = Write NativeEndian env2 p (d, w2)).
    { apply Write_fixed_color; auto. congruence. }
    pose proof (Write_Color env1 p (d, w1)) as WC.
    pose proof (session_same_state chunks (snd (Write NativeEndian env1 p (d, w1)))) as IH.
    unfold session in *. cbn [Writes]. unfold bind in IH |- *. rewrite <- W.
    destruct (Write NativeEndian env1 p (d, w1)) as [[n | e | q |] st1];
      try reflexivity.
    apply IH. cbn [fst snd] in WC |- *. congruence.
Qed.

End Environment.



(** * The columns of a line *)

Lemma string_length_app (s1 s2 : string) :
  String.length (s1 ++ s2) = (String.length s1 + String.length s2)%nat.
Proof. induction s1; simpl; congruence. Qed.

Lemma charTable_width (fm : Formatter) (skip : Z) (buf : list byte) :
  0 <= skip ->
  Z.of_nat (String.length (charTable fm skip buf))
  = Z.max (fLineWidth fm) (skip + len buf).
Proof.
  intros Hs. unfold charTable.
  rewrite !string_length_app, !spaces_length, length_string_of_list_ascii, length_map.
  unfold len. lia.
Qed.

(** X9.  The character column is as wide as the line when the leading skip and
    the payload end within the line, and as wide as the two of them when
    they do not. *)
Theorem charTable_length :
  forall (fm : Formatter) (skip : Z) (buf : list byte),
    0 <= skip ->
    Z.of_nat (String.length (charTable fm skip buf))
    = Z.max (fLineWidth fm) (skip + len buf).
Proof. exact charTable_width. Qed.

Lemma charTable_length_witness :
  Z.of_nat (String.length
    (charTable {| fWriter := Stdout; fTheme := DefaultTheme;
                  fStyle := StyleCanonical; fOrder := binary.LittleEndian;
                  fLineWidth := 16 |} 7 (list_byte_of_string "World")))
  = Z.max 16 (7 + len (list_byte_of_string "World")).
Proof.
  apply (charTable_length
           {| fWriter := Stdout; fTheme := DefaultTheme;
              fStyle := StyleCanonical; fOrder := binary.LittleEndian;
              fLineWidth := 16 |} 7 (list_byte_of_string "World")). lia.
Defined.

(** ** The width of a number *)

Lemma digits_length (base : Z) :
  2 <= base ->
  forall (fuel k : nat) (u : Z) (acc : string),
    (1 <= k <= fuel)%nat ->
    0 <= u < base ^ Z.of_nat k ->
    (String.length (fmt.digits fuel base u acc) <= k + String.length acc)%nat.
Proof.
  intros Hb. induction fuel as [| fuel IH]; intros k u acc Hk Hu; [lia |].
  cbn [fmt.digits]. destruct (Z.ltb_spec u base) as [L | L].
  - simpl. lia.
  - destruct k as [| [| k]]; [lia | |].
    + change (base ^ Z.of_nat 1) with (base ^ 1) in Hu. rewrite Z.pow_1_r in Hu. lia.
    + specialize (IH (S k) (u / base)
                    (String (fmt.digit (u mod base)) acc) ltac:(lia)).
      change (String.length (String (fmt.digit (u mod base)) acc))
        with (S (String.length acc)) in IH.
      assert (0 <= u / base < base ^ Z.of_nat (S k)).
      { rewrite (Nat2Z.inj_succ (S k)), Z.pow_succ_r in Hu by lia.
        split; [apply Z.div_pos; lia |].
        apply Z.div_lt_upper_bound; lia. }
      specialize (IH H). lia.
Qed.

Lemma zeros_length (n : nat) : String.length (fmt.zeros n) = n.
Proof. induction n; simpl; congruence. Qed.

(** A number that is not negative and has at most [width] digits is printed
    with exactly [width] characters. *)
Lemma fmtInteger_length (base width v : Z) :
  2 <= base -> 1 <= width <= 68 -> 0 <= v < base ^ width ->
  String.length (fmt.fmtInteger base width v) = Z.to_nat width.
Proof.
  intros Hb Hw Hv. unfold fmt.fmtInteger.
  destruct (Z.ltb_spec v 0); [lia |].
  cbv beta zeta iota. rewrite Z.abs_eq by lia.
  assert (Hv' : 0 <= v < base ^ Z.of_nat (Z.to_nat width))
    by (rewrite Z2Nat.id by lia; exact Hv).
  assert (Hk : (1 <= Z.to_nat width <= 68)%nat) by lia.
  pose proof (digits_length base Hb 68 (Z.to_nat width) v EmptyString Hk Hv') as D.
  change (String.length EmptyString) with 0%nat in D.
  rewrite !string_length_app, zeros_length.
  change (String.length EmptyString) with 0%nat.
  clear Hv Hv'. lia.
Qed.

Lemma byte_val_range (c : byte) : 0 <= byte_val c < 256.
Proof. destruct c; vm_compute; split; congruence. Qed.

Lemma Uint16_range (order : binary.ByteOrder) (b0 b1 : byte) :
  stdOrder order -> 0 <= binary.Uint16 b0 b1 < 65536.
Proof.
  pose proof (byte_val_range b0). pose proof (byte_val_range b1).
  assert (K : forall x y, 0 <= x < 256 -> 0 <= y < 256 ->
                          0 <= Z.lor x (Z.shiftl y 8) < 65536).
  { intros x y Hx Hy. rewrite Z.shiftl_mul_pow2 by lia.
    change (2 ^ 8) with 256.
    pose proof (Z.add_lor_land x (y * 256)).
    assert (0 <= Z.land x (y * 256)) by (apply Z.land_nonneg; lia).
    assert (0 <= Z.lor x (y * 256)) by (apply Z.lor_nonneg; lia).
    lia. }
  intros [-> | ->]; cbn [binary.Uint16 binary.LittleEndian binary.BigEndian]; auto.
Qed.

(** ** The width of a token *)

Lemma token1_length (s : DisplayStyle) (c : byte) :
  definedStyle s = true -> isTwoBytes s = false ->
  (s = StyleOneByteChar -> byte_val c < 128) ->
  String.length (token1 s c) = tokenWidth s.
Proof.
  intros D T A. pose proof (byte_val_range c) as R.
  style_cases D; try discriminate T.
  - change (token1 0 c) with (fmt.fmtInteger 16 2 (byte_val c)).
    apply (fmtInteger_length 16 2); [lia | lia | change (16 ^ 2) with 256; lia].
  - specialize (A eq_refl). unfold token1.
    change (1 =? StyleOneByteChar) with true. cbn [andb].
    destruct (unicode.IsPrint (byte_val c)); [| reflexivity].
    change (formatValue 1 (byte_val c)) with ("  " ++ fmt.encodeRune (byte_val c))%string.
    unfold fmt.encodeRune. destruct (Z.ltb_spec (byte_val c) 128); [reflexivity | lia].
  - change (token1 2 c) with (fmt.fmtInteger 16 2 (byte_val c)).
    apply (fmtInteger_length 16 2); [lia | lia | change (16 ^ 2) with 256; lia].
  - change (token1 3 c) with (fmt.fmtInteger 8 3 (byte_val c)).
    apply (fmtInteger_length 8 3); [lia | lia | change (8 ^ 3) with 512; lia].
Qed.

Lemma tokens2_widths (s : DisplayStyle) (order : binary.ByteOrder) :
  isTwoBytes s = true -> stdOrder order ->
  forall p : list byte,
    Forall (fun t => String.length t = tokenWidth s) (tokens2 s order p).
Proof.
  intros T O.
  assert (V : forall v, 0 <= v < 65536 -> String.length (formatValue s v) = tokenWidth s).
  { intros v Hv. style_cases T.
    - change (formatValue 4 v) with ("  " ++ fmt.fmtInteger 10 5 v)%string.
      rewrite string_length_app, (fmtInteger_length 10 5);
        [reflexivity | lia | lia | change (10 ^ 5) with 100000; lia].
    - change (formatValue 5 v) with ("   " ++ fmt.fmtInteger 16 4 v)%string.
      rewrite string_length_app, (fmtInteger_length 16 4);
        [reflexivity | lia | lia | change (16 ^ 4) with 65536; lia].
    - change (formatValue 6 v) with (" " ++ fmt.fmtInteger 8 6 v)%string.
      rewrite string_length_app, (fmtInteger_length 8 6);
        [reflexivity | lia | lia | change (8 ^ 6) with 262144; lia]. }
  induction p as [| a | a a' l IH] using list_ind2; cbn [tokens2].
  - constructor.
  - constructor; [| constructor]. apply V. pose proof (byte_val_range a). lia.
  - constructor; [| exact IH]. apply V. apply Uint16_range. exact O.
Qed.

Lemma padding_widths (s : DisplayStyle) (n : Z) :
  Forall (fun t => String.length t = tokenWidth s) (padding s n).
Proof.
  unfold padding, tokenWidth, Repeat.
  destruct (isHexOrCanonical s); [apply Forall_forall; intros t H;
                                  apply repeat_spec in H; now subst |].
  destruct (isCharOrOctal s); [apply Forall_forall; intros t H;
                               apply repeat_spec in H; now subst |].
  destruct (isTwoBytes s); [apply Forall_forall; intros t H;
                            apply repeat_spec in H; now subst | constructor].
Qed.

(** The tokens of a line, all of them, for a named style. *)
Lemma formatLine_tokens (s : DisplayStyle) (width skip : Z) (buf : list byte)
    (order : binary.ByteOrder) :
  definedStyle s = true ->
  formatLine s width skip buf order
  = Ok (padding s (Z.max skip 0)
        ++ (if isTwoBytes s then tokens2 s order buf else List.map (token1 s) buf)
        ++ padding s (Z.max (width - skip - len buf) 0)).
Proof.
  intros D. unfold formatLine. now rewrite formatGroups_terminates.
Qed.

Lemma formatLine_widths (s : DisplayStyle) (width skip : Z) (buf : list byte)
    (order : binary.ByteOrder) (toks : list string) :
  definedStyle s = true ->
  stdOrder order ->
  (s = StyleOneByteChar -> Forall (fun c => byte_val c < 128) buf) ->
  formatLine s width skip buf order = Ok toks ->
  Forall (fun t => String.length t = tokenWidth s) toks.
Proof.
  intros D O A E.
  rewrite formatLine_tokens in E by assumption. injection E as <-.
  apply Forall_app. split; [apply padding_widths |].
  apply Forall_app. split; [| apply padding_widths].
  destruct (isTwoBytes s) eqn:T; [apply tokens2_widths; auto |].
  apply Forall_forall. intros t H. apply in_map_iff in H.
  destruct H as (c & <- & Hc). apply token1_length; auto.
  intros Hs. specialize (A Hs). rewrite Forall_forall in A. auto.
Qed.

(** X8.  Every token of a line has the width of its style: two characters in
    the hex styles, three in the octal and the char style, seven in the
    two-byte styles, the blank tokens included. *)
Theorem formatLine_token_widths :
  forall (s : DisplayStyle) (width skip : Z) (buf : list byte)
         (order : binary.ByteOrder) (toks : list string),
    definedStyle s = true ->
    stdOrder order ->
    (s = StyleOneByteChar -> Forall (fun c => byte_val c < 128) buf) ->
    formatLine s width skip buf order = Ok toks ->
    Forall (fun t => String.length t = tokenWidth s) toks.
Proof. exact formatLine_widths. Qed.

Lemma formatLine_token_widths_witness :
  Forall (fun t => String.length t = tokenWidth StyleTwoBytesDec)
    ["       "; "  00513"; "  00003"; "       "].
Proof.
  apply (formatLine_token_widths StyleTwoBytesDec 8 2 [x01; x02; x03]
           binary.LittleEndian); try reflexivity.
  - left; reflexivity.
  - discriminate.
Defined.

(** ** The width of a line *)

Lemma writeTokens_length (k : nat) (lineWidth : Z) :
  forall (toks toks' : list string) (i : Z),
    Forall (fun t => String.length t = k) toks ->
    Forall (fun t => String.length t = k) toks' ->
    List.length toks = List.length toks' ->
    String.length (writeTokens lineWidth i toks)
    = String.length (writeTokens lineWidth i toks').
Proof.
  induction toks as [| t toks IH]; intros [| t' toks'] i F F' L;
    try discriminate L; [reflexivity |].
  inversion F as [| ? ? Ht Fr]; subst. inversion F' as [| ? ? Ht' Fr']; subst.
  injection L as L. cbn [writeTokens].
  rewrite !string_length_app, Ht', (IH toks' (i + 1) Fr Fr' L). reflexivity.
Qed.

(** The number of tokens of a regular line: one for each group of the line
    width. *)
Lemma regular_token_count (fm : Formatter) (off skip : Z) (buf : list byte) :
  definedStyle (fStyle fm) = true ->
  regular fm (off, skip, buf) ->
  exists toks,
    formatLine (fStyle fm) (fLineWidth fm) skip buf (fOrder fm) = Ok toks
    /\ len toks = ceilDiv (fLineWidth fm) (groupSize (fStyle fm)).
Proof.
  intros D (_ & S0 & W & T & _).
  rewrite formatLine_tokens by exact D. eexists. split; [reflexivity |].
  pose proof (len_nonneg buf) as L0.
  rewrite !len_app, !padding_length by (try exact D; lia).
  replace (Z.max skip 0) with skip by lia.
  replace (Z.max (fLineWidth fm - skip - len buf) 0)
    with (fLineWidth fm - skip - len buf) by lia.
  unfold ceilDiv, groupSize in *.
  destruct (isTwoBytes (fStyle fm)).
  - destruct (T eq_refl) as [Es Ew].
    apply Z.even_spec in Es. destruct Es as [a ->].
    apply Z.even_spec in Ew. destruct Ew as [m Ew]. rewrite Ew in *.
    rewrite tokens2_length.
    Z.to_euclidean_division_equations. lia.
  - unfold len in *. rewrite length_map, !Z.div_1_r. lia.
Qed.

(** X10.  The lines of one formatter are equally long: two regular line records,
    whatever their offsets, skips and payloads, render to texts of the same
    length, so the columns of a dump stand under one another. *)
Theorem regular_lines_same_length :
  forall (nc : bool) (fm : Formatter) (l1 l2 : Z * Z * list byte),
    definedStyle (fStyle fm) = true ->
    stdOrder (fOrder fm) ->
    regular fm l1 -> regular fm l2 ->
    String.length (lineText nc fm (fst (fst l1)) (snd (fst l1)) (snd l1))
    = String.length (lineText nc fm (fst (fst l2)) (snd (fst l2)) (snd l2)).
Proof.
  intros nc fm [[off1 skip1] buf1] [[off2 skip2] buf2] D O R1 R2.
  cbn [fst snd].
  destruct (regular_token_count fm off1 skip1 buf1 D R1) as (t1 & E1 & C1).
  destruct (regular_token_count fm off2 skip2 buf2 D R2) as (t2 & E2 & C2).
  pose proof (formatLine_widths (fStyle fm) (fLineWidth fm) skip1 buf1
                (fOrder fm) t1 D O) as F1.
  pose proof (formatLine_widths (fStyle fm) (fLineWidth fm) skip2 buf2
                (fOrder fm) t2 D O) as F2.
  destruct R1 as (Ho1 & S1 & W1 & _ & A1). destruct R2 as (Ho2 & S2 & W2 & _ & A2).
  specialize (F1 A1 E1). specialize (F2 A2 E2).
  assert (L : List.length t1 = List.length t2).
  { unfold len in C1, C2. lia. }
  pose proof (writeTokens_length _ (fLineWidth fm) t1 t2 0 F1 F2 L) as WT.
  unfold lineText, formatOffset, formatContent, formatChars.
  rewrite E1, E2. cbn [snd].
  unfold color.Sprint, color.SetWriter, color.UnsetWriter.
  pose proof (len_nonneg buf1). pose proof (len_nonneg buf2).
  pose proof (charTable_width fm skip1 buf1 S1) as CT1.
  pose proof (charTable_width fm skip2 buf2 S2) as CT2.
  change (2 ^ 32) with 4294967296 in Ho1, Ho2.
  assert (N1 : String.length (fmt.fmtInteger 16 8 off1) = 8%nat).
  { apply (fmtInteger_length 16 8); [lia | lia | change (16 ^ 8) with 4294967296; lia]. }
  assert (N2 : String.length (fmt.fmtInteger 16 8 off2) = 8%nat).
  { apply (fmtInteger_length 16 8); [lia | lia | change (16 ^ 8) with 4294967296; lia]. }
  destruct nc; rewrite !string_length_app, WT, N1, N2; lia.
Qed.

Lemma regular_lines_same_length_witness :
  String.length (lineText true
                   {| fWriter := Stdout; fTheme := DefaultTheme;
                      fStyle := StyleTwoBytesHex; fOrder := binary.BigEndian;
                      fLineWidth := 8 |} 4096 2 [x01; x02; x03])
  = String.length (lineText true
                   {| fWriter := Stdout; fTheme := DefaultTheme;
                      fStyle := StyleTwoBytesHex; fOrder := binary.BigEndian;
                      fLineWidth := 8 |} 0 0 [x61; x62; x63; x64; x65; x66; x67; x68]).
Proof.
  apply (regular_lines_same_length true
           {| fWriter := Stdout; fTheme := DefaultTheme;
              fStyle := StyleTwoBytesHex; fOrder := binary.BigEndian;
              fLineWidth := 8 |}
           (4096, 2, [x01; x02; x03])
           (0, 0, [x61; x62; x63; x64; x65; x66; x67; x68])).
  - reflexivity.
  - right; reflexivity.
  - cbn. repeat split; try lia; try reflexivity; discriminate.
  - cbn. repeat split; try lia; try reflexivity; discriminate.
Defined.

(** * [Stream] *)

Lemma total_cons (c : list byte) (r : io.Reader) :
  io.total (c :: r) = len c + io.total r.
Proof. unfold io.total. cbn [List.concat]. apply len_app. Qed.

Lemma total_nonneg (r : io.Reader) : 0 <= io.total r.
Proof. apply len_nonneg. Qed.

(** [io.CopyN] to [io.Discard]: the count is the smaller of [n] and the
    length of the input, and the reader is left with the bytes after it. *)
Lemma discard_spec (r : io.Reader) :
  forall n : Z,
    0 <= n ->
    fst (io.discard n r) = Z.min n (io.total r)
    /\ List.concat (snd (io.discard n r)) = skipn (Z.to_nat n) (List.concat r).
Proof.
  induction r as [| c r IH]; intros n Hn; cbn [io.discard].
  - cbn [fst snd List.concat]. rewrite skipn_nil.
    change (io.total []) with 0. split; [lia | reflexivity].
  - pose proof (total_nonneg r) as T. pose proof (len_nonneg c) as Lc.
    rewrite total_cons. cbn [List.concat].
    destruct (Z.leb_spec n 0) as [N0 | N0].
    + cbn [fst snd List.concat]. replace n with 0 by lia. split; [lia | reflexivity].
    + destruct (Z.leb_spec (len c) n) as [C | C].
      * destruct (IH (n - len c) ltac:(lia)) as [I1 I2].
        destruct (io.discard (n - len c) r) as [m r'']. cbn [fst snd] in *.
        split; [lia |].
        rewrite skipn_app, skipn_all2 by (unfold len in C; lia).
        cbn [app]. rewrite I2. f_equal. unfold len. lia.
      * cbn [fst snd List.concat]. split; [lia |].
        rewrite skipn_app.
        replace (Z.to_nat n - List.length c)%nat with O by (unfold len in C; lia).
        reflexivity.
Qed.

Lemma LimitedReader_concat (r : io.Reader) :
  forall n : Z,
    0 <= n ->
    List.concat (io.LimitedReader r n) = firstn (Z.to_nat n) (List.concat r).
Proof.
  induction r as [| c r IH]; intros n Hn; cbn [io.LimitedReader List.concat].
  - now rewrite firstn_nil.
  - pose proof (len_nonneg c) as Lc.
    destruct (Z.leb_spec n 0) as [N0 | N0].
    + replace n with 0 by lia. reflexivity.
    + destruct (Z.leb_spec (len c) n) as [C | C]; cbn [List.concat].
      * rewrite firstn_app, firstn_all2 by (unfold len in C; lia).
        rewrite IH by lia. do 2 f_equal. unfold len. lia.
      * rewrite firstn_app, app_nil_r.
        replace (Z.to_nat n - List.length c)%nat with O by (unfold len in C; lia).
        cbn [firstn]. now rewrite app_nil_r.
Qed.

Lemma concat_pieces (r : io.Reader) : List.concat (pieces r) = List.concat r.
Proof.
  induction r as [| [| c p] r IH]; [reflexivity | exact IH |].
  change (pieces ((c :: p) :: r)) with ((c :: p) :: pieces r).
  cbn [List.concat]. now rewrite IH.
Qed.

(** [io.Copy] into a dumper is the session of the pieces that hold a byte,
    short of its [Flush]. *)
Lemma Copy_Writes (NativeEndian : binary.ByteOrder) (autoNoColor : Writer -> bool)
    (r : io.Reader) (st : State) :
  Copy NativeEndian autoNoColor r st = Writes NativeEndian autoNoColor (pieces r) st.
Proof.
  revert st. induction r as [| [| c p] r IH]; intros st;
    [reflexivity | exact (IH st) |].
  change (pieces ((c :: p) :: r)) with ((c :: p) :: pieces r).
  cbn [Copy Writes]. unfold bind. destruct (Write NativeEndian autoNoColor (c :: p) st) as [[n | e | q |] st'];
    auto.
Qed.

(** What [Stream] does before its [io.Copy]: the dumper it hands the bytes
    to and the reader it hands them from, when the skip does not run past
    the end of the input. *)
Lemma Stream_session (r : io.Reader) (x : list Option) :
  Skip (New x) <= io.total r ->
  exists chunks,
    List.concat chunks = window (New x) (List.concat r)
    /\ forall (NativeEndian : binary.ByteOrder) (autoNoColor : Writer -> bool)
              (w : World),
         Stream NativeEndian autoNoColor r x w
         = session NativeEndian autoNoColor chunks
             (if 0 <? Skip (New x) then set_off (Skip (New x)) (New x) else New x, w).
Proof.
  intros HS. unfold Stream, window, io.CopyN_Discard.
  destruct (Z.ltb_spec 0 (Skip (New x))) as [P | P].
  - destruct (discard_spec r (Skip (New x)) ltac:(lia)) as [D1 D2].
    destruct (io.discard (Skip (New x)) r) as [n r']. cbn [fst snd] in D1, D2.
    assert (n = Skip (New x)) as -> by lia.
    rewrite Z.eqb_refl.
    change (Length (set_off (Skip (New x)) (New x))) with (Length (New x)).
    destruct (Z.ltb_spec 0 (Length (New x))) as [L | L].
    + exists (pieces (io.LimitedReader r' (Length (New x)))).
      split.
      * rewrite concat_pieces, LimitedReader_concat, D2 by lia. reflexivity.
      * intros. unfold session, bind. rewrite Copy_Writes. reflexivity.
    + exists (pieces r'). split.
      * rewrite concat_pieces. exact D2.
      * intros. unfold session, bind. rewrite Copy_Writes. reflexivity.
  - destruct (Z.ltb_spec 0 (Length (New x))) as [L | L].
    + exists (pieces (io.LimitedReader r (Length (New x)))).
      split.
      * rewrite concat_pieces, LimitedReader_concat by lia. reflexivity.
      * intros. unfold session, bind. rewrite Copy_Writes. reflexivity.
    + exists (pieces r). split.
      * apply concat_pieces.
      * intros. unfold session, bind. rewrite Copy_Writes. reflexivity.
Qed.

Lemma Stream_EOF (NativeEndian : binary.ByteOrder) (autoNoColor : Writer -> bool)
    (r : io.Reader) (x : list Option) (w : World) :
  io.total r < Skip (New x) ->
  Stream NativeEndian autoNoColor r x w
  = (Err EOF, (set_off (io.total r) (New x), w)).
Proof.
  intros H. unfold Stream, io.CopyN_Discard.
  pose proof (total_nonneg r) as T.
  destruct (Z.ltb_spec 0 (Skip (New x))) as [P | P]; [| lia].
  destruct (discard_spec r (Skip (New x)) ltac:(lia)) as [D1 _].
  destruct (io.discard (Skip (New x)) r) as [n r']. cbn [fst] in D1.
  assert (n = io.total r) as -> by lia.
  destruct (Z.eqb_spec (io.total r) (Skip (New x))); [lia | reflexivity].
Qed.

(** X11.  A skip past the end of the input: [Stream] returns [io.EOF], with the
    count of the bytes it discarded in [off], and nothing has been written
    or decided: no line, no color. *)
Theorem Stream_skip_beyond_input :
  forall (NativeEndian : binary.ByteOrder) (autoNoColor : Writer -> bool)
         (r : io.Reader) (x : list Option) (w : World),
    io.total r < Skip (New x) ->
    Stream NativeEndian autoNoColor r x w
    = (Err EOF, (set_off (io.total r) (New x), w)).
Proof. exact Stream_EOF. Qed.

Lemma Stream_skip_beyond_input_witness :
  Stream binary.LittleEndian (fun _ => true)
    [list_byte_of_string "Hello, "; list_byte_of_string "World!"]
    [Opt.Skip 14] world0
  = (Err EOF, (set_off 13 (New [Opt.Skip 14]), world0)).
Proof.
  apply (Stream_skip_beyond_input binary.LittleEndian (fun _ => true)
           [list_byte_of_string "Hello, "; list_byte_of_string "World!"]
           [Opt.Skip 14] world0).
  vm_compute. reflexivity.
Defined.

Lemma Stream_window (NativeEndian : binary.ByteOrder) (autoNoColor : Writer -> bool)
    (r : io.Reader) (x : list Option) (w : World) (st' : State) :
  b (New x) = [] ->
  Stream NativeEndian autoNoColor r x w = (Ok tt, st') ->
  List.concat (payloads (trace (snd st')))
  = List.concat (payloads (trace w)) ++ window (New x) (List.concat r).
Proof.
  intros B E.
  destruct (Z.le_gt_cases (Skip (New x)) (io.total r)) as [S | S].
  - destruct (Stream_session r x S) as (chunks & C & E1).
    rewrite E1 in E. unfold session in E.
    apply bind_ok in E. destruct E as ([] & st0 & E0 & E).
    apply Writes_payload in E0. apply Flush_payload in E. destruct E as [E2 _].
    rewrite E2, E0, C. cbn [fst snd].
    replace (b (if 0 <? Skip (New x) then set_off (Skip (New x)) (New x) else New x))
      with (b (New x)) by (destruct (0 <? Skip (New x)); reflexivity).
    rewrite B. reflexivity.
  - rewrite Stream_EOF in E by lia. discriminate E.
Qed.

(** X12.  The bytes [Stream] dumps.  When it returns normally, the payloads of
    its lines, one after the other, are the window of the input: the bytes
    after the first [Skip], and of these the first [Length] when [Length] is
    positive, however the reader hands them over. *)
Theorem Stream_payloads :
  forall (NativeEndian : binary.ByteOrder) (autoNoColor : Writer -> bool)
         (r : io.Reader) (x : list Option) (w : World) (st' : State),
    b (New x) = [] ->
    Stream NativeEndian autoNoColor r x w = (Ok tt, st') ->
    List.concat (payloads (trace (snd st')))
    = List.concat (payloads (trace w)) ++ window (New x) (List.concat r).
Proof. exact Stream_window. Qed.

Lemma Stream_payloads_witness :
  List.concat (payloads (trace (snd (snd
    (Stream binary.LittleEndian (fun _ => true)
       [list_byte_of_string "Hello, "; list_byte_of_string "World!"]
       [Opt.Skip 4; Opt.Length 6; Opt.LineWidth 4] world0)))))
  = List.concat (payloads (trace world0))
    ++ window (New [Opt.Skip 4; Opt.Length 6; Opt.LineWidth 4])
         (List.concat [list_byte_of_string "Hello, "; list_byte_of_string "World!"]).
Proof.
  apply (Stream_payloads binary.LittleEndian (fun _ => true)
           [list_byte_of_string "Hello, "; list_byte_of_string "World!"]
           [Opt.Skip 4; Opt.Length 6; Opt.LineWidth 4] world0
           (snd (Stream binary.LittleEndian (fun _ => true)
                   [list_byte_of_string "Hello, "; list_byte_of_string "World!"]
                   [Opt.Skip 4; Opt.Length 6; Opt.LineWidth 4] world0))).
  - reflexivity.
  - vm_compute. reflexivity.
Defined.

(** Two sessions of a new dumper from an aligned start that carry the same
    bytes. *)
Lemma sessions_agree (NativeEndian : binary.ByteOrder) (autoNoColor : Writer -> bool)
    (d : Dumper) (w : World) (chunks1 chunks2 : list (list byte)) :
  f d = None -> once d = false -> b d = [] ->
  definedStyle (Style d) = true ->
  0 <= LineWidth d ->
  0 <= Start d + off d ->
  (Start d + off d) mod effWidth d = 0 ->
  List.concat chunks1 = List.concat chunks2 ->
  exists st1 st2,
    session NativeEndian autoNoColor chunks1 (d, w) = (Ok tt, st1)
    /\ session NativeEndian autoNoColor chunks2 (d, w) = (Ok tt, st2)
    /\ rendered (trace (snd st1)) = rendered (trace (snd st2)).
Proof.
  intros Hf Ho Hb Hs HW HN HA HC.
  assert (Wpos : 0 < effWidth d).
  { unfold effWidth, DefaultLineWidth. destruct (Z.eqb_spec (LineWidth d) 0); lia. }
  assert (D : definedStyle (fStyle (theFormatter NativeEndian d)) = true).
  { unfold theFormatter. rewrite Hf. exact Hs. }
  assert (H0 : chunked NativeEndian autoNoColor (theFormatter NativeEndian d)
                 (effWidth d) (colorDecision autoNoColor d) (Start d + off d)
                 (lineEvents (trace w)) [] (d, w)).
  { split; [repeat split |]. split; [cbn [fst]; congruence |].
    exists O. cbn [fst snd]. rewrite Hb. cbn [Z.of_nat fullLines skipn Nat.mul].
    unfold len; cbn [List.length Z.of_nat]. rewrite app_nil_r.
    repeat split; lia. }
  destruct (session_chunked NativeEndian autoNoColor _ _ _ Wpos D _ _ HN HA chunks1 _ H0)
    as (st1 & E1 & L1).
  destruct (session_chunked NativeEndian autoNoColor _ _ _ Wpos D _ _ HN HA chunks2 _ H0)
    as (st2 & E2 & L2).
  exists st1, st2. split; [exact E1 |]. split; [exact E2 |].
  rewrite <- (rendered_lineEvents (trace (snd st1))),
          <- (rendered_lineEvents (trace (snd st2))).
  rewrite L1, L2, HC. reflexivity.
Qed.



(** X14.  [Stream] and [Bytes].  Over a reader that hands its bytes over in one
    piece, with a skip that leaves a byte and a length within what the skip
    leaves, [Stream] does what [Bytes] does on a slice of these bytes
    without spare capacity: same result, same state, same trace. *)
Theorem Stream_single_piece :
  forall (NativeEndian : binary.ByteOrder) (autoNoColor : Writer -> bool)
         (data : list byte) (x : list Option) (w : World),
    Z.max (Skip (New x)) 0 < len data ->
    Length (New x) <= len data - Z.max (Skip (New x)) 0 ->
    Stream NativeEndian autoNoColor [data] x w
    = Bytes NativeEndian autoNoColor {| elems := data; spare := [] |} x w.
Proof.
  intros NativeEndian autoNoColor data x w HS HL.
  assert (CW : forall (p : list byte) (st : State),
             p <> [] ->
             (Copy NativeEndian autoNoColor [p] ;;; Flush NativeEndian autoNoColor) st
             = (Write NativeEndian autoNoColor p ;;; Flush NativeEndian autoNoColor) st).
  { intros [| c p] st Hp; [congruence |]. cbn [Copy]. unfold bind, ret.
    destruct (Write NativeEndian autoNoColor (c :: p) st) as [[n | e | q |] st'];
      reflexivity. }
  assert (NE : forall (n : Z) (l : list byte), 0 < n -> 0 < len l ->
             firstn (Z.to_nat n) l <> []).
  { intros n [| c l] Hn Hl; [unfold len in Hl; simpl in Hl; lia |].
    destruct (Z.to_nat n) eqn:E; [lia | discriminate]. }
  unfold Stream, Bytes, Bytes_window, io.CopyN_Discard, slice_from, slice_to, cap.
  cbn [elems spare io.discard].
  destruct (Z.ltb_spec 0 (Skip (New x))) as [P | P].
  - destruct (Z.leb_spec (Skip (New x)) 0); [lia |].
    destruct (Z.leb_spec (len data) (Skip (New x))); [lia |].
    rewrite Z.eqb_refl.
    destruct (Z.leb_spec 0 (Skip (New x))); [| lia].
    destruct (Z.leb_spec (Skip (New x)) (len data)); [| lia].
    cbn [andb elems spare].
    change (Length (set_off (Skip (New x)) (New x))) with (Length (New x)).
    set (rest := skipn (Z.to_nat (Skip (New x))) data).
    assert (LR : len rest = len data - Skip (New x)).
    { subst rest. unfold len. rewrite length_skipn. unfold len in *. lia. }
    clearbody rest.
    destruct (Z.ltb_spec 0 (Length (New x))) as [L | L].
    + cbn [io.LimitedReader].
      destruct (Z.leb_spec (Length (New x)) 0); [lia |].
      destruct (Z.leb_spec 0 (Length (New x))); [| lia].
      change (len []) with 0. rewrite Z.add_0_r.
      destruct (Z.leb_spec (Length (New x)) (len rest)); [| lia].
      cbn [andb elems]. rewrite app_nil_r.
      destruct (Z.leb_spec (len rest) (Length (New x))).
      * rewrite firstn_all2 by (unfold len in *; lia).
        cbn [io.LimitedReader]. apply CW.
        intros E. cbn [elems] in E. rewrite E in LR. change (len (@nil byte)) with 0 in LR. lia.
      * apply CW. apply NE; lia.
    + apply CW. intros E. cbn [elems] in E. rewrite E in LR. change (len (@nil byte)) with 0 in LR. lia.
  - cbn [andb elems spare].
    destruct (Z.ltb_spec 0 (Length (New x))) as [L | L].
    + cbn [io.LimitedReader].
      destruct (Z.leb_spec (Length (New x)) 0); [lia |].
      destruct (Z.leb_spec 0 (Length (New x))); [| lia].
      change (len []) with 0. rewrite Z.add_0_r.
      destruct (Z.leb_spec (Length (New x)) (len data)); [| lia].
      cbn [andb elems]. rewrite app_nil_r.
      destruct (Z.leb_spec (len data) (Length (New x))).
      * rewrite firstn_all2 by (unfold len in *; lia).
        cbn [io.LimitedReader]. apply CW.
        intros E. cbn [elems] in E. rewrite E in HS. change (len (@nil byte)) with 0 in HS. lia.
      * apply CW. apply NE; lia.
    + apply CW. intros E. cbn [elems] in E. rewrite E in HS. change (len (@nil byte)) with 0 in HS. lia.
Qed.

Lemma Stream_single_piece_witness :
  Stream binary.LittleEndian (fun _ => true) [list_byte_of_string "Hello, World!"]
    [Opt.Skip 7; Opt.Length 5] world0
  = Bytes binary.LittleEndian (fun _ => true)
      {| elems := list_byte_of_string "Hello, World!"; spare := [] |}
      [Opt.Skip 7; Opt.Length 5] world0.
Proof.
  apply (Stream_single_piece binary.LittleEndian (fun _ => true)
           (list_byte_of_string "Hello, World!") [Opt.Skip 7; Opt.Length 5] world0);
    vm_compute; congruence.
Defined.

(** * [Range] *)

Lemma New_snoc (x : list Option) (o : Option) : New (x ++ [o]) = o (New x).
Proof. unfold New. now rewrite fold_left_app. Qed.

(** X15.  [Range] through [Stream].  With two bounds that are not negative, in
    either order, a [Stream] that returns normally has dumped the bytes of
    the input from the smaller bound up to the larger; with two equal
    bounds the range is not empty: it is everything from the bound on. *)
Theorem Stream_Range :
  forall (NativeEndian : binary.ByteOrder) (autoNoColor : Writer -> bool)
         (r : io.Reader) (x : list Option) (w : World) (st' : State) (lo hi : Z),
    b (New x) = [] ->
    0 <= lo -> 0 <= hi ->
    Stream NativeEndian autoNoColor r (x ++ [Opt.Range lo hi]) w = (Ok tt, st') ->
    List.concat (payloads (trace (snd st')))
    = List.concat (payloads (trace w))
      ++ (if lo =? hi then skipn (Z.to_nat lo) (List.concat r)
          else firstn (Z.to_nat (Z.max lo hi - Z.min lo hi))
                 (skipn (Z.to_nat (Z.min lo hi)) (List.concat r))).
Proof.
  intros NativeEndian autoNoColor r x w st' lo hi B Hlo Hhi E.
  apply Stream_window in E.
  - rewrite E. f_equal. rewrite New_snoc. unfold window, Opt.Range.
    destruct (Z.ltb_spec hi lo) as [C | C]; cbn [Skip Length set_Length set_Skip].
    + destruct (Z.eqb_spec lo hi); [lia |].
      replace (Z.min lo hi) with hi by lia. replace (Z.max lo hi) with lo by lia.
      destruct (Z.ltb_spec 0 (lo - hi)); [| lia].
      destruct (Z.ltb_spec 0 hi); [reflexivity |].
      replace hi with 0 by lia. reflexivity.
    + replace (Z.min lo hi) with lo by lia. replace (Z.max lo hi) with hi by lia.
      destruct (Z.eqb_spec lo hi) as [-> | N].
      * rewrite Z.sub_diag. cbn [Z.ltb Z.compare].
        destruct (Z.ltb_spec 0 hi); [reflexivity |].
        replace hi with 0 by lia. reflexivity.
      * destruct (Z.ltb_spec 0 (hi - lo)); [| lia].
        destruct (Z.ltb_spec 0 lo); [reflexivity |].
        replace lo with 0 by lia. reflexivity.
  - rewrite New_snoc. unfold Opt.Range.
    destruct (hi <? lo); cbn [b set_Length set_Skip]; exact B.
Qed.

Lemma Stream_Range_witness :
  List.concat (payloads (trace (snd (snd
    (Stream binary.LittleEndian (fun _ => true)
       [list_byte_of_string "Hello, "; list_byte_of_string "World!"]
       ([Opt.LineWidth 4] ++ [Opt.Range 12 8]) world0)))))
  = List.concat (payloads (trace world0))
    ++ (if 12 =? 8
        then skipn (Z.to_nat 12)
               (List.concat [list_byte_of_string "Hello, "; list_byte_of_string "World!"])
        else firstn (Z.to_nat (Z.max 12 8 - Z.min 12 8))
               (skipn (Z.to_nat (Z.min 12 8))
                  (List.concat [list_byte_of_string "Hello, ";
                                list_byte_of_string "World!"]))).
Proof.
  apply (Stream_Range binary.LittleEndian (fun _ => true)
           [list_byte_of_string "Hello, "; list_byte_of_string "World!"]
           [Opt.LineWidth 4] world0
           (snd (Stream binary.LittleEndian (fun _ => true)
                   [list_byte_of_string "Hello, "; list_byte_of_string "World!"]
                   ([Opt.LineWidth 4] ++ [Opt.Range 12 8]) world0)) 12 8).
  - reflexivity.
  - lia.
  - lia.
  - vm_compute. reflexivity.
Defined.


(** * The command [xd] *)

Lemma displayStyle_defined (fl : xd.Flags) :
  definedStyle (xd.displayStyle fl) = true.
Proof.
  unfold xd.displayStyle.
  destruct (xd.canonical fl), (xd.oneByteChar fl), (xd.oneByteHex fl),
    (xd.oneByteOctal fl), (xd.twoBytesDec fl), (xd.twoBytesHex fl),
    (xd.twoBytesOct fl); reflexivity.
Qed.

(** X16.  [xd] from an aligned skip.  With a width that is not negative and a
    skip within the input and on a multiple of the width in use (16 for a
    width of 0), whatever the style flags, [dump] gets no error from
    [Stream]: it returns normally, and the bytes of its lines are the
    window of the input that [-s] and [-n] select. *)
Theorem xd_dump_aligned_skip :
  forall (NativeEndian : binary.ByteOrder) (autoNoColor : Writer -> bool)
         (fl : xd.Flags) (r : io.Reader) (w : World),
    0 <= xd.width fl ->
    0 <= xd.skip fl <= io.total r ->
    xd.skip fl mod (if xd.width fl =? 0 then DefaultLineWidth else xd.width fl) = 0 ->
    exists st',
      xd.dump NativeEndian autoNoColor fl r w = (Ok tt, st')
      /\ List.concat (payloads (trace (snd st')))
         = List.concat (payloads (trace w))
           ++ window (New (xd.opts fl)) (List.concat r).
Proof.
  intros NativeEndian autoNoColor fl r w HW HK HA. unfold xd.dump.
  set (x := xd.opts fl).
  assert (Q : f (New x) = None /\ once (New x) = false /\ b (New x) = []
              /\ off (New x) = 0 /\ Start (New x) = 0
              /\ Style (New x) = xd.displayStyle fl
              /\ LineWidth (New x) = xd.width fl /\ Skip (New x) = xd.skip fl)
    by (repeat split).
  destruct Q as (Qf & Qo & Qb & Qoff & Qs & Qst & Qw & Qk).
  destruct (Stream_session r x ltac:(lia)) as (chunks & C & E).
  set (d := if 0 <? Skip (New x) then set_off (Skip (New x)) (New x) else New x) in E.
  assert (Q : f d = None /\ once d = false /\ b d = []
              /\ Style d = Style (New x) /\ LineWidth d = LineWidth (New x)
              /\ Start d + off d = Start (New x) + Skip (New x)).
  { subst d. destruct (Z.ltb_spec 0 (Skip (New x)));
      cbn [f once b Style LineWidth Start off set_off]; repeat split; auto; lia. }
  destruct Q as (Q1 & Q2 & Q3 & Q4 & Q5 & Q6).
  assert (A : (Start d + off d) mod effWidth d = 0).
  { rewrite Q6, Qs, Qk. unfold effWidth. rewrite Q5, Qw. exact HA. }
  clearbody d.
  destruct (sessions_agree NativeEndian autoNoColor d w chunks chunks)
    as (st1 & _ & S1 & _ & _); try assumption; try lia.
  - rewrite Q4, Qst. apply displayStyle_defined.
  - reflexivity.
  - exists st1. rewrite E. split; [exact S1 |].
    apply (Stream_window NativeEndian autoNoColor r x w st1 Qb).
    rewrite E. exact S1.
Qed.

Lemma xd_dump_aligned_skip_witness :
  exists st',
    xd.dump binary.LittleEndian (fun _ => true)
      {| xd.canonical := false; xd.oneByteOctal := true; xd.oneByteHex := false;
         xd.oneByteChar := false; xd.twoBytesDec := false; xd.twoBytesOct := false;
         xd.twoBytesHex := true; xd.color := ColorAuto; xd.noColor := false;
         xd.length := 3; xd.skip := 8; xd.width := 4 |}
      [list_byte_of_string "Hello, "; list_byte_of_string "World!"] world0
    = (Ok tt, st')
    /\ List.concat (payloads (trace (snd st')))
       = List.concat (payloads (trace world0))
         ++ window
              (New (xd.opts
                 {| xd.canonical := false; xd.oneByteOctal := true;
                    xd.oneByteHex := false; xd.oneByteChar := false;
                    xd.twoBytesDec := false; xd.twoBytesOct := false;
                    xd.twoBytesHex := true; xd.color := ColorAuto;
                    xd.noColor := false; xd.length := 3; xd.skip := 8;
                    xd.width := 4 |}))
              (List.concat [list_byte_of_string "Hello, "; list_byte_of_string "World!"]).
Proof.
  apply (xd_dump_aligned_skip binary.LittleEndian (fun _ => true)
           {| xd.canonical := false; xd.oneByteOctal := true; xd.oneByteHex := false;
              xd.oneByteChar := false; xd.twoBytesDec := false; xd.twoBytesOct := false;
              xd.twoBytesHex := true; xd.color := ColorAuto; xd.noColor := false;
              xd.length := 3; xd.skip := 8; xd.width := 4 |}
           [list_byte_of_string "Hello, "; list_byte_of_string "World!"] world0).
  - vm_compute. discriminate.
  - vm_compute. split; discriminate.
  - reflexivity.
Defined.

(** X17.  [xd -no-color].  With the flag set, the result of [dump] and the
    events of its run, the text of every line included, are the same
    whatever the environment says about colors and whatever the process-wide
    [color.NoColor] was before; a skip past the end of the input included. *)
Theorem xd_no_color_ignores_environment :
  forall (NativeEndian : binary.ByteOrder) (env1 env2 : Writer -> bool)
         (fl : xd.Flags) (r : io.Reader) (w1 w2 : World),
    xd.noColor fl = true ->
    trace w1 = trace w2 ->
    let run1 := xd.dump NativeEndian env1 fl r w1 in
    let run2 := xd.dump NativeEndian env2 fl r w2 in
    fst run1 = fst run2 /\ trace (snd (snd run1)) = trace (snd (snd run2)).
Proof.
  intros NativeEndian env1 env2 fl r w1 w2 NC T run1 run2.
  subst run1 run2. unfold xd.dump.
  set (x := xd.opts fl).
  assert (Q : once (New x) = false /\ Color (New x) = ColorNever).
  { split; [reflexivity |]. subst x. unfold xd.opts, xd.colorMode. rewrite NC.
    reflexivity. }
  destruct Q as [Qo Qc].
  destruct (Z.le_gt_cases (Skip (New x)) (io.total r)) as [S | S].
  - destruct (Stream_session r x S) as (chunks & _ & E). rewrite !E.
    set (d := if 0 <? Skip (New x) then set_off (Skip (New x)) (New x) else New x).
    assert (Q : once d = false /\ Color d = ColorNever).
    { subst d. destruct (0 <? Skip (New x)); cbn [once Color set_off]; auto. }
    destruct Q as [Q1 Q2].
    rewrite (session_fixed_color NativeEndian env1 env2 chunks d w1 w2);
      [auto | congruence | exact Q1 | exact T].
  - rewrite !Stream_EOF by lia. cbn [fst snd]. auto.
Qed.

Lemma xd_no_color_ignores_environment_witness :
  let fl := {| xd.canonical := true; xd.oneByteOctal := false; xd.oneByteHex := false;
               xd.oneByteChar := false; xd.twoBytesDec := false; xd.twoBytesOct := false;
               xd.twoBytesHex := false; xd.color := ColorAlways; xd.noColor := true;
               xd.length := 0; xd.skip := 0; xd.width := 16 |} in
  let run1 := xd.dump binary.LittleEndian (fun _ => true) fl
                [list_byte_of_string "Hello, World!"]
                {| NoColor := true; trace := [] |} in
  let run2 := xd.dump binary.LittleEndian (fun _ => false) fl
                [list_byte_of_string "Hello, World!"]
                {| NoColor := false; trace := [] |} in
  fst run1 = fst run2 /\ trace (snd (snd run1)) = trace (snd (snd run2)).
Proof.
  apply (xd_no_color_ignores_environment binary.LittleEndian
           (fun _ => true) (fun _ => false)
           {| xd.canonical := true; xd.oneByteOctal := false; xd.oneByteHex := false;
              xd.oneByteChar := false; xd.twoBytesDec := false; xd.twoBytesOct := false;
              xd.twoBytesHex := false; xd.color := ColorAlways; xd.noColor := true;
              xd.length := 0; xd.skip := 0; xd.width := 16 |}
           [list_byte_of_string "Hello, World!"]
           {| NoColor := true; trace := [] |} {| NoColor := false; trace := [] |});
    reflexivity.
Defined.
(** * The examples of dump_test.go *)

Example formatLine_little_endian :
  formatLine StyleTwoBytesHex 8 0 [x01; x02; x03; x04; x05; x06; x07; x08]
    binary.LittleEndian
  = Ok ["   0201"; "   0403"; "   0605"; "   0807"].
Proof. reflexivity. Qed.

Example formatLine_octal :
  formatLine StyleOneByteOctal 4 1 (list_byte_of_string "He") binary.BigEndian
  = Ok ["   "; "110"; "145"; "   "].
Proof. reflexivity. Qed.

Example ExampleString :
  rendered (trace (snd (snd
    (String_ binary.LittleEndian (fun _ => true) "Hello, World!" [] [] world0))))
  = ("00000000  48 65 6c 6c 6f 2c 20 57  6f 72 6c 64 21           |Hello, World!   |"
     ++ newline)%string.
Proof. vm_compute. reflexivity. Qed.

Example ExampleStart :
  rendered (trace (snd (snd
    (String_ binary.LittleEndian (fun _ => true) "Hello, World!" [] [Opt.Start 4100] world0))))
  = ("00001000              48 65 6c 6c  6f 2c 20 57 6f 72 6c 64  |    Hello, World|"
     ++ newline ++
     "00001010  21                                                |!               |"
     ++ newline)%string.
Proof. vm_compute. reflexivity. Qed.

Example ExampleOneByteChar :
  rendered (trace (snd (snd
    (String_ binary.LittleEndian (fun _ => true) "Hello, World!" []
       [Opt.Style StyleOneByteChar] world0))))
  = ("00000000    H   e   l   l   o   ,       W    o   r   l   d   !              |Hello, World!   |"
     ++ newline)%string.
Proof. vm_compute. reflexivity. Qed.

Example ExampleTwoBytesDec :
  rendered (trace (snd (snd
    (Bytes binary.LittleEndian (fun _ => true)
       {| elems := [x7b; x00; xc8; x01; x15; x03]; spare := [] |}
       [Opt.Style StyleTwoBytesDec] world0))))
  = ("00000000    00123   00456   00789                                          |{.....          |"
     ++ newline)%string.
Proof. vm_compute. reflexivity. Qed.

Example ExampleLineWidth :
  rendered (trace (snd (snd
    (String_ binary.LittleEndian (fun _ => true) "Hello, World!" []
       [Opt.LineWidth 8] world0))))
  = ("00000000  48 65 6c 6c 6f 2c 20 57  |Hello, W|" ++ newline ++
     "00000008  6f 72 6c 64 21           |orld!   |" ++ newline)%string.
Proof. vm_compute. reflexivity. Qed.

Example ExampleOneByteOctal :
  rendered (trace (snd (snd
    (String_ binary.LittleEndian (fun _ => true) "Hello, World!" []
       [Opt.Style StyleOneByteOctal] world0))))
  = ("00000000  110 145 154 154 157 054 040 127  157 162 154 144 041              |Hello, World!   |"
     ++ newline)%string.
Proof. vm_compute. reflexivity. Qed.

Example ExampleTwoBytesOctal :
  rendered (trace (snd (snd
    (Bytes binary.LittleEndian (fun _ => true)
       {| elems := [x53; x00; x2e; x01; xff; x01]; spare := [] |}
       [Opt.Style StyleTwoBytesOctal] world0))))
  = ("00000000   000123  000456  000777                                          |S.....          |"
     ++ newline)%string.
Proof. vm_compute. reflexivity. Qed.

Example ExampleBigEndian :
  rendered (trace (snd (snd
    (Bytes binary.LittleEndian (fun _ => true)
       {| elems := [x01; x02; x03; x04; x05; x06; x07; x08]; spare := [] |}
       [Opt.TwoBytesHex; Opt.BigEndian] world0))))
  = ("00000000     0102    0304    0506    0708                                  |........        |"
     ++ newline)%string.
Proof. vm_compute. reflexivity. Qed.

Example ExampleSkip :
  rendered (trace (snd (snd
    (String_ binary.LittleEndian (fun _ => true) "Hello, World!" []
       [Opt.Skip 7] world0))))
  = ("00000000                       57  6f 72 6c 64 21           |       World!   |"
     ++ newline)%string.
Proof. vm_compute. reflexivity. Qed.

Example ExampleRange :
  rendered (trace (snd (snd
    (String_ binary.LittleEndian (fun _ => true) "Hello, World!" []
       [Opt.Range 7 12] world0))))
  = ("00000000                       57  6f 72 6c 64              |       World    |"
     ++ newline)%string.
Proof. vm_compute. reflexivity. Qed.

Example ExampleLength :
  rendered (trace (snd (snd
    (String_ binary.LittleEndian (fun _ => true) "Hello, World!" []
       [Opt.Length 5] world0))))
  = ("00000000  48 65 6c 6c 6f                                    |Hello           |"
     ++ newline)%string.
Proof. vm_compute. reflexivity. Qed.

Example TestAlwaysColor :
  rendered (trace (snd (snd
    (String_ binary.LittleEndian (fun _ => true) "Hello, World!" []
       [Opt.AlwaysColor; Opt.Output (Sink 0)] world0))))
  = (color.Sprint false (Offset DefaultTheme) "00000000" ++ " "
     ++ color.Sprint false (Content DefaultTheme)
          " 48 65 6c 6c 6f 2c 20 57  6f 72 6c 64 21         "
     ++ "  |" ++ color.Sprint false (Chars DefaultTheme) "Hello, World!   "
     ++ "|" ++ newline)%string.
Proof. vm_compute. reflexivity. Qed.
